(** * DexAdofm worker payouts: balance locking and settlement

    A shallow embedding of the worker router ([POST /payout],
    [GET /balance], [GET /me]), of the payout queue processor
    [process_Queue] and of the secret-sharing helpers ([createShares],
    [fetchShares], [recoverPrivateKey]), with the properties the
    specification states about them.

    Conventions.
    - The [Worker] and [Payouts] tables are a finite map keyed by the
      worker id and an append-only list; amounts are the integer columns
      of the store, modelled in [Z] (the schema, and so the width of the
      columns, is not among the sources; no bound is modelled).
    - In the answers of the routes, JavaScript's [a / b] on a store
      integer and a configuration constant is given by the exact
      rational [a # b]; the double in the answer is the correctly
      rounded value of that rational. The lamports of a transfer, which
      the code computes by a multiplication and a division, are modelled
      in binary64 with both roundings ([double]).
    - A JavaScript string is represented by its UTF-8 bytes
      ([String.string]), a [Buffer] or [Uint8Array] by [list byte].
    - Everything outside the repository (the share servers, the ledger
      network, the npm libraries) is a variable of the enclosing section
      or an argument of the handler. *)

From Stdlib Require Import ZArith QArith Lia List.
From Stdlib Require Import Strings.String Strings.Ascii Strings.Byte DecimalString.
From Stdlib Require Import Floats.SpecFloat.
From stdpp Require Import gmap strings list.

Close Scope Q_scope.
Local Open Scope Z_scope.

(** A JavaScript [Error] with its [message]. *)
Inductive Thrown := Err (message : string).

Definition message_of (e : Thrown) : string :=
  match e with Err m => m end.

(** A promise once settled. *)
Inductive Settled (A : Type) :=
| Fulfilled (a : A)
| Rejected (e : Thrown).
Arguments Fulfilled {A} a.
Arguments Rejected {A} e.

(** ** Numbers

    A JavaScript number is an IEEE 754 binary64 value, and [*] and [/]
    round their exact result to the nearest one, ties to even. The
    operations are those of the Standard Library's specification of
    floating-point arithmetic, at precision 53 and exponent bound
    1024. *)
Definition double : Type := spec_float.

(** The number the runtime holds for an integer: the integer itself
    up to 2^53 in magnitude, the nearest double beyond. *)
Definition double_of_Z (n : Z) : double := binary_normalize 53 1024 n 0 false.

(** [x * y] and [x / y] *)
Definition double_mul (x y : double) : double := SFmul 53 1024 x y.
Definition double_div (x y : double) : double := SFdiv 53 1024 x y.

(** The integer a double holds, if it holds one. *)
Definition integer_of (x : double) : option Z :=
  match x with
  | S754_zero _ => Some 0
  | S754_finite s m e =>
      match e with
      | Zneg k =>
          if Zpos m mod 2 ^ Zpos k =? 0 then Some (cond_Zopp s (Zpos m / 2 ^ Zpos k))
          else None
      | _ => Some (cond_Zopp s (Zpos m * 2 ^ e))
      end
  | S754_infinity _ | S754_nan => None
  end.

(** A positive integer without its factors 2, and the integers a
    double holds exactly: those whose odd part is below 2^53 (all are
    far below the largest double here). *)
Fixpoint odd_part (p : positive) : positive :=
  match p with
  | xO p' => odd_part p'
  | _ => p
  end.

Definition is_odd (p : positive) : bool :=
  match p with
  | xO _ => false
  | _ => true
  end.

Definition representable (n : positive) : Prop := Zpos (odd_part n) < 2 ^ 53.

(** The double that holds a representable integer: its 53-digit
    mantissa and its exponent. *)
Definition encode (n : positive) : double :=
  S754_finite false (Z.to_pos (Zpos n * 2 ^ 53 / 2 ^ Zdigits2 (Zpos n)))
    (Zdigits2 (Zpos n) - 53).

(** ** The record store *)

(** A row of the [Worker] table; the primary key [id] is the key of the
    map that holds the rows. *)
Record Worker := mkWorker {
  address : string;
  pending_amount : Z;
  locked_amount : Z
}.

(** Modelled from the spec: the enumeration of the [status] column of a
    payout row, declared in the Prisma schema, which is not among the
    sources; its three values are those of the specification's data
    model. [process_Queue] only ever writes [Success]. *)
Inductive TxnStatus := Pending | Success | Failed.

(** A row of the [Payouts] table. *)
Record Payout := mkPayout {
  worker_id : Z;
  amount : Z;
  status : TxnStatus;
  signature : string
}.

Record Db := mkDb {
  workers : gmap Z Worker;
  payouts : list Payout
}.

(** [tx.worker.findUnique({ where: { id } })] *)
Definition findUnique (id : Z) (d : Db) : option Worker := workers d !! id.

(** [prismaClient.worker.findFirst({ where: { id } })] *)
Definition findFirst (id : Z) (d : Db) : option Worker := workers d !! id.

(** [tx.worker.update({ where: { id }, data })]: the row after the
    update and the new store, or [None] when no row has this id (Prisma
    raises). *)
Definition worker_update (id : Z) (f : Worker -> Worker) (d : Db)
  : option (Worker * Db) :=
  match workers d !! id with
  | None => None
  | Some w => Some (f w, mkDb (<[id := f w]> (workers d)) (payouts d))
  end.

(** [tx.payouts.create({ data })] *)
Definition payouts_create (p : Payout) (d : Db) : Db :=
  mkDb (workers d) (payouts d ++ [p]).

(** [prismaClient.payouts.findMany({ where: { worker_id } })] *)
Definition payouts_findMany (id : Z) (d : Db) : list Payout :=
  List.filter (fun p => Z.eqb (worker_id p) id) (payouts d).

(** [prismaClient.$transaction(callback)]: the callback's writes are
    kept when it returns and discarded when it throws. *)
Definition transaction {A : Type} (callback : Db -> Thrown + (A * Db)) (d : Db)
  : (Thrown + A) * Db :=
  match callback d with
  | inl e => (inl e, d)
  | inr (a, d') => (inr a, d')
  end.

(** ** The process: store, payout queue, console, ledger network *)

(** The payload of a [payoutQueue] job. *)
Record Job := mkJob { workerId : Z }.

(** The transfer instruction built by [SystemProgram.transfer]. *)
Record Transfer := mkTransfer {
  fromPubkey : string;
  toPubkey : string;
  lamports : double
}.

(** What [console.log] receives. The interpolated numbers of the
    "was payed" line are kept as fields. *)
Inductive LogLine :=
| LogText (s : string)
| LogNumber (n : Z)
| LogPaid (worker : Z) (paid : double) (sig : string).

Record World := mkWorld {
  db : Db;
  queue : list Job;
  console : list LogLine;
  submitted : list Transfer
}.

Definition with_db (d : Db) (w : World) : World :=
  mkWorld d (queue w) (console w) (submitted w).

Definition enqueue (j : Job) (w : World) : World :=
  mkWorld (db w) (queue w ++ [j]) (console w) (submitted w).

Definition log (l : LogLine) (w : World) : World :=
  mkWorld (db w) (queue w) (console w ++ [l]) (submitted w).

Definition submit (t : Transfer) (w : World) : World :=
  mkWorld (db w) (queue w) (console w) (submitted w ++ [t]).

(** ** [POST /payout]: locking the pending balance *)

(** The two errors the locking transaction throws, under the names the
    specification gives them. *)
Definition NotFound : Thrown := Err "Worker not found".

Definition InsufficientBalance : Thrown :=
  Err "Your need to have atleast 0.03 sol as pending amount to withdraw.".

(** Prisma's error for an update that matches no row. *)
Definition RecordNotFound : Thrown := Err "Record to update not found.".

(** The [data] of the locking update: [pending_amount] decremented and
    [locked_amount] incremented by [amount]. *)
Definition move_to_locked (amount : Z) (w : Worker) : Worker :=
  mkWorker (address w) (pending_amount w - amount) (locked_amount w + amount).

(** [a / b] on a store integer and a positive integer constant. *)
Definition js_div (a : Z) (b : positive) : Q := Qmake a b.

Inductive Response :=
| Ok200 (lockedAmount : Q)
| Error500 (message : string).

Section Router.

(** [TOTAL_DECIMALS] of the configuration module, which is not among
    the sources: a positive integer constant. *)
Variable TOTAL_DECIMALS : positive.

(** The callback of the locking transaction. *)
Definition lock (id : Z) (d : Db) : Thrown + (Q * Db) :=
  match findUnique id d with
  | None => inl (Err "Worker not found")
  | Some worker =>
      if pending_amount worker <? 3000 then
        inl (Err "Your need to have atleast 0.03 sol as pending amount to withdraw.")
      else
        let amount := pending_amount worker in
        match worker_update id (move_to_locked amount) d with
        | None => inl RecordNotFound
        | Some (updateWorkerLockedBalance, d') =>
            inr (js_div (locked_amount updateWorkerLockedBalance) TOTAL_DECIMALS, d')
        end
  end.

(** The handler, after [workerMiddleware] has put the worker id on the
    request. *)
Definition post_payout (id : Z) (w : World) : Response * World :=
  let w := log (LogNumber id) w in
  match transaction (lock id) (db w) with
  | (inr lockedAmount, d') =>
      (Ok200 lockedAmount, enqueue (mkJob id) (with_db d' w))
  | (inl e, d') => (Error500 (message_of e), with_db d' w)
  end.

End Router.

(** ** [GET /balance] and [GET /me] *)

(** The body of the balance response; a field is [None] where the
    optional chaining [worker?.x] gives [undefined]. *)
Record BalanceJson := mkBalanceJson {
  pendingAmount : option Z;
  lockedAmount : option Z
}.

Definition get_balance (id : Z) (w : World) : BalanceJson * World :=
  let worker := findFirst id (db w) in
  (mkBalanceJson (pending_amount <$> worker) (pending_amount <$> worker), w).

(** The loop [payouts.forEach(payout => totalEarning += payout.amount)]. *)
Definition totalEarning (ps : list Payout) : Z :=
  fold_left (fun acc payout => acc + amount payout) ps 0.

Inductive MeResponse :=
| Me404 (message : string)
| MeJson (existingUser : Worker) (locked amount earning : Q).

Section Me.

Variable TOTAL_DECIMALS : positive.

Definition get_me (id : Z) (w : World) : MeResponse * World :=
  match findFirst id (db w) with
  | None => (Me404 "Worker Not Found", w)
  | Some existingUser =>
      let payouts := payouts_findMany id (db w) in
      (MeJson existingUser
         (js_div (locked_amount existingUser) TOTAL_DECIMALS)
         (js_div (pending_amount existingUser) TOTAL_DECIMALS)
         (js_div (totalEarning payouts) TOTAL_DECIMALS), w)
  end.

End Me.

Definition status_eqb (a b : TxnStatus) : bool :=
  match a, b with
  | Pending, Pending | Success, Success | Failed, Failed => true
  | _, _ => false
  end.

(** The amounts of the payout rows of worker [id] that carry the status
    [st], added up. *)
Definition amount_with_status (id : Z) (st : TxnStatus) (ps : list Payout) : Z :=
  fold_right Z.add 0
    (map amount
       (List.filter (fun p => Z.eqb (worker_id p) id && status_eqb (status p) st) ps)).

(** ** Strings, numbers and byte arrays *)

Definition comma : ascii := ascii_of_nat 44.
Definition newline : string := String (ascii_of_nat 10) EmptyString.
Definition dquote : string := String (ascii_of_nat 34) EmptyString.

(** [s.split(",")] for the separator [sep]. *)
Fixpoint split (sep : ascii) (s : string) : list string :=
  match s with
  | EmptyString => [EmptyString]
  | String c rest =>
      if Ascii.eqb c sep then EmptyString :: split sep rest
      else match split sep rest with
           | [] => [String c EmptyString]
           | piece :: pieces => String c piece :: pieces
           end
  end.

(** Whether the separator [sep] is absent from [s]. *)
Fixpoint free_of (sep : ascii) (s : string) : bool :=
  match s with
  | EmptyString => true
  | String c rest => negb (Ascii.eqb c sep) && free_of sep rest
  end.

(** [pieces.join(",")] *)
Fixpoint join (sep : ascii) (pieces : list string) : string :=
  match pieces with
  | [] => EmptyString
  | [piece] => piece
  | piece :: rest => (piece ++ String sep (join sep rest))%string
  end.

(** A JavaScript number as [Number] produces it from text. [JsNat n]
    is the integer [n], for [n] up to 2^53, which a double holds
    exactly. [JsNumberOf src] is the number the runtime reads from any
    other text [src]: NaN for most, but also an integer for text such
    as [" 12"] or ["1e2"], and the nearest double for a longer run of
    digits. It is left uninterpreted: nothing is concluded from two
    numbers being written differently. *)
Inductive JsNumber :=
| JsNat (n : N)
| JsNumberOf (src : string).

Definition digit_of (c : ascii) : option N :=
  let n := N_of_ascii c in
  if ((48 <=? n) && (n <=? 57))%N then Some (n - 48)%N else None.

Fixpoint digits_value (s : string) (acc : N) : option N :=
  match s with
  | EmptyString => Some acc
  | String c rest =>
      match digit_of c with
      | Some d => digits_value rest (10 * acc + d)%N
      | None => None
      end
  end.

(** A run of decimal digits (the empty run is 0) of value up to 2^53
    is read as its value. *)
Definition Number (s : string) : JsNumber :=
  match digits_value s 0 with
  | Some n => if (n <=? 9007199254740992)%N then JsNat n else JsNumberOf s
  | None => JsNumberOf s
  end.

(** The decimal text of a non-negative integer, as template literals
    and [toString] print it. *)
Definition decimal (n : N) : string :=
  NilEmpty.string_of_uint (N.to_uint n).

(** [new Uint8Array(share).toString()]: the elements in decimal, joined
    by commas. *)
Definition Uint8Array_toString (share : list byte) : string :=
  join comma (map (fun b => decimal (Byte.to_N b)) share).

(** [share.split(",").map(Number)] *)
Definition shareArray_of (share : string) : list JsNumber :=
  map Number (split comma share).

(** The numbers a byte array holds, as a library sees them when it is
    handed the array. *)
Definition numbers_of (share : list byte) : list JsNumber :=
  map (fun b => JsNat (Byte.to_N b)) share.

(** [Buffer.from(text)] and [buffer.toString()]. A buffer that is not
    well-formed UTF-8 would print with replacement characters; such
    text is outside the base-58 alphabet either way. *)
Definition Buffer_from (text : string) : list byte := list_byte_of_string text.
Definition Buffer_toString (buffer : list byte) : string := string_of_list_byte buffer.

(** ** The share servers and the ledger network *)

(** The [share] property of a response body, by how the code treats
    it: falsy values other than the empty string, a string, or a truthy
    value that is not a string. *)
Inductive ShareField :=
| ShareFalsy
| ShareString (s : string)
| ShareOther.

(** [res.data]: [undefined], [null], or a value whose [share] property
    can be read. *)
Inductive ResponseData :=
| NoData
| NullData
| Data (share : ShareField).

(** The outcome of [axios.get]. *)
Inductive Reply :=
| Unreachable (e : Thrown)
| Responded (data : ResponseData).

(** The two errors the runtime raises inside the response callback
    (with V8's wording). *)
Definition TypeError_share : Thrown :=
  Err "Cannot read properties of undefined (reading 'share')".

Definition TypeError_share_null : Thrown :=
  Err "Cannot read properties of null (reading 'share')".

Definition TypeError_split : Thrown := Err "share.split is not a function".

(** The network as one job sees it: the reply of each share URL, the
    order in which the replies arrive (see [arrange]), and what
    [connection.sendTransaction] returns for a signed transfer. *)
Record Network (Keypair : Type) := mkNetwork {
  get : string -> Reply;
  arrival : list nat;
  sendTransaction : Transfer -> Keypair -> Thrown + string
}.
Arguments get {Keypair} n url.
Arguments arrival {Keypair} n.
Arguments sendTransaction {Keypair} n transaction keypair.

(** ** [fetchShares] *)

(** The array the callbacks push to, and the console. *)
Record FetchState := mkFetchState {
  sharesArray : list (list JsNumber);
  fetch_console : list LogLine
}.

(** The callback given to [then]. *)
Definition on_response (data : ResponseData) (st : FetchState)
  : Settled unit * FetchState :=
  match data with
  | NoData => (Rejected TypeError_share, st)
  | NullData => (Rejected TypeError_share_null, st)
  | Data ShareFalsy => (Fulfilled tt, st)
  | Data (ShareString EmptyString) => (Fulfilled tt, st)
  | Data (ShareString share) =>
      let shareArray := shareArray_of share in
      (Fulfilled tt,
       mkFetchState (sharesArray st ++ [shareArray]) (fetch_console st))
  | Data ShareOther => (Rejected TypeError_split, st)
  end.

(** The callback given to [catch]. *)
Definition on_error (err : Thrown) (st : FetchState) : Settled unit * FetchState :=
  (Fulfilled tt,
   mkFetchState (sharesArray st) (fetch_console st ++ [LogText (message_of err)])).

(** [axios.get(url).then(on_response).catch(on_error)] *)
Definition request (reply : Reply) (st : FetchState) : Settled unit * FetchState :=
  let then_ :=
    match reply with
    | Unreachable e => (Rejected e, st)
    | Responded data => on_response data st
    end in
  match then_ with
  | (Fulfilled u, st') => (Fulfilled u, st')
  | (Rejected e, st') => on_error e st'
  end.

(** The requests are issued together and settle in any order. A
    schedule names one: its first number says how many of the later
    requests settle before the first request does (all of them, when
    the number exceeds their count), and so on down the list; a
    schedule that runs out stands for zeros. *)
Fixpoint arrange {A : Type} (schedule : list nat) (requests : list A) : list A :=
  match requests with
  | [] => []
  | first :: later =>
      let settled := arrange (tail schedule) later in
      let k := hd O schedule in
      take k settled ++ first :: drop k settled
  end.

(** The callbacks of the requests, run in the order given. *)
Fixpoint run_requests (replies : list Reply) (st : FetchState)
  : list (Settled unit) * FetchState :=
  match replies with
  | [] => ([], st)
  | reply :: rest =>
      let '(p, st1) := request reply st in
      let '(ps, st2) := run_requests rest st1 in
      (p :: ps, st2)
  end.

(** [Promise.all] *)
Fixpoint Promise_all {A : Type} (ps : list (Settled A)) : Settled (list A) :=
  match ps with
  | [] => Fulfilled []
  | Rejected e :: _ => Rejected e
  | Fulfilled a :: rest =>
      match Promise_all rest with
      | Fulfilled l => Fulfilled (a :: l)
      | Rejected e => Rejected e
      end
  end.

(** One call of [fetchShares]: the URLs requested, what the promise
    settles to, and what was logged. *)
Record FetchRun := mkFetchRun {
  fetch_urls : list string;
  fetched : Settled (list (list JsNumber));
  fetch_log : list LogLine
}.

Definition share_url (endpoint : string) : string := (endpoint ++ "/share")%string.

Definition fetchShares (DISTRIBUTED_SERVER_ENDPOINTS : list string)
  (get : string -> Reply) (schedule : list nat) : FetchRun :=
  let urls := map share_url DISTRIBUTED_SERVER_ENDPOINTS in
  let '(requests, st) :=
    run_requests (arrange schedule (map get urls)) (mkFetchState [] []) in
  mkFetchRun urls
    (match Promise_all requests with
     | Fulfilled _ => Fulfilled (sharesArray st)
     | Rejected e => Rejected e
     end)
    (fetch_console st).

(** The fragment a reply delivers: its [share] when that is a
    non-empty string, split at the commas and read as numbers. *)
Definition fragment_of (reply : Reply) : option (list JsNumber) :=
  match reply with
  | Responded (Data (ShareString (String c rest))) =>
      Some (shareArray_of (String c rest))
  | _ => None
  end.

(** The error of a request that fails: the rejection of [axios.get],
    or the error raised while the response is read. *)
Definition failure_of (reply : Reply) : option Thrown :=
  match reply with
  | Unreachable e => Some e
  | Responded NoData => Some TypeError_share
  | Responded NullData => Some TypeError_share_null
  | Responded (Data ShareOther) => Some TypeError_split
  | Responded (Data _) => None
  end.

(** The text of a reply's [share] when it is a non-empty string. *)
Definition share_text (reply : Reply) : option string :=
  match reply with
  | Responded (Data (ShareString (String c rest))) => Some (String c rest)
  | _ => None
  end.

(** A response that is passed over: its [share] is falsy (absent,
    [null], [0], [false] or the empty string), so nothing is pushed and
    nothing is thrown. *)
Definition skipped (reply : Reply) : bool :=
  match reply with
  | Responded (Data ShareFalsy) | Responded (Data (ShareString EmptyString)) => true
  | _ => false
  end.

(** ** [recoverPrivateKey] and [createShares] *)

Definition InsufficientShares : Thrown := Err "Minimum threshold required".

Definition CorruptShare : Thrown :=
  Err "Could not recover the private key, send a valid uint8 array".

Section Sss.

(** [THRESHOLD] and [SHARES] of the configuration module. *)
Variable THRESHOLD : nat.
Variable SHARES : nat.

(** The libraries: [sss.split] with the randomness it draws, and
    [sss.combine], of [shamirs-secret-sharing]; bs58's [decode];
    [Keypair.fromSecretKey] of the ledger client. [None] stands for a
    throw. *)
Variable Seed : Type.
Variable sss_split : Seed -> list byte -> nat -> nat -> option (list (list byte)).
Variable sss_combine : list (list JsNumber) -> option (list byte).
Variable bs58_decode : string -> option (list byte).
Variable Keypair : Type.
Variable Keypair_fromSecretKey : list byte -> option Keypair.

Definition recoverPrivateKey (sharesArray : list (list JsNumber))
  : Thrown + Keypair :=
  if (length sharesArray <? THRESHOLD)%nat then
    inl (Err "Minimum threshold required")
  else
    let try :=
      recovered ← sss_combine sharesArray;
      secretKey ← bs58_decode (Buffer_toString recovered);
      Keypair_fromSecretKey secretKey in
    match try with
    | Some keypair => inr keypair
    | None =>
        inl (Err "Could not recover the private key, send a valid uint8 array")
    end.

(** The two lines [createShares] writes for the share at [index]. *)
Definition env_entry (index : nat) (share : list byte) : string :=
  let number := (index + 1)%nat in
  let shareString := Uint8Array_toString share in
  ("# SHARE_" ++ decimal (N.of_nat number) ++ " " ++ newline
   ++ "SHARE=" ++ dquote ++ shareString ++ dquote ++ " " ++ newline)%string.

Fixpoint env_entries (index : nat) (shares : list (list byte)) (data : string)
  : string :=
  match shares with
  | [] => data
  | share :: rest => env_entries (S index) rest (data ++ env_entry index share)%string
  end.

(** [createShares]: the text written to [./src/sss/.env], or [None]
    when [sss.split] throws. *)
Definition createShares (seed : Seed) (privateKey : string) : option string :=
  let secret := Buffer_from privateKey in
  match sss_split seed secret SHARES THRESHOLD with
  | None => None
  | Some shares => Some (env_entries 0 shares EmptyString)
  end.

End Sss.

(** ** [process_Queue]: settling one payout job *)

(** Code that may throw and that acts on the world: the console and
    the ledger network keep what happened before a throw. *)
Definition Try (A : Type) : Type := World -> (Thrown + A) * World.

Definition pure {A : Type} (a : A) : Try A := fun w => (inr a, w).

Definition throw {A : Type} (e : Thrown) : Try A := fun w => (inl e, w).

Definition and_then {A B : Type} (c : Try A) (k : A -> Try B) : Try B :=
  fun w =>
    match c w with
    | (inl e, w') => (inl e, w')
    | (inr a, w') => k a w'
    end.

Notation "'let*' x ':=' c 'in' k" := (and_then c (fun x => k))
  (at level 10, x name, c at level 200, k at level 200, only parsing).

(** A library call that throws [e] ([Some e]) or passes ([None]). *)
Definition check (thrown : option Thrown) : Try unit :=
  match thrown with
  | Some e => throw e
  | None => pure tt
  end.

Definition from_result {A : Type} (r : Thrown + A) : Try A := fun w => (r, w).

Definition effect (f : World -> World) : Try unit := fun w => (inr tt, f w).

Definition logs (lines : list LogLine) (w : World) : World :=
  mkWorld (db w) (queue w) (console w ++ lines) (submitted w).

(** The [data] of the finalizing update. *)
Definition decrement_locked (amount : Z) (w : Worker) : Worker :=
  mkWorker (address w) (pending_amount w) (locked_amount w - amount).

Section Settlement.

(** The configuration module. *)
Variable TOTAL_DECIMALS : positive.
Variable THRESHOLD : nat.
Variable PARENT_WALLET_PUBLIC_KEY : option string.
Variable DISTRIBUTED_SERVER_ENDPOINTS : list string.

(** The libraries of [recoverPrivateKey]. *)
Variable sss_combine : list (list JsNumber) -> option (list byte).
Variable bs58_decode : string -> option (list byte).
Variable Keypair : Type.
Variable Keypair_fromSecretKey : list byte -> option Keypair.

(** The ledger client: the error [new PublicKey(text)] throws, if any,
    and the error [SystemProgram.transfer] throws for an amount, if
    any. *)
Variable PublicKey_error : string -> option Thrown.
Variable transfer_error : double -> option Thrown.

(** [await fetchShares()] *)
Definition await_fetchShares (net : Network Keypair)
  : Try (list (list JsNumber)) :=
  fun w =>
    let run := fetchShares DISTRIBUTED_SERVER_ENDPOINTS (get net) (arrival net) in
    (match fetched run with
     | Fulfilled shares => inr shares
     | Rejected e => inl e
     end, logs (fetch_log run) w).

(** [await connection.sendTransaction(transaction, [keypair], ...)] *)
Definition await_sendTransaction (net : Network Keypair)
  (transaction : Transfer) (keypair : Keypair) : Try string :=
  fun w => (sendTransaction net transaction keypair, submit transaction w).

(** The body of the [try] block: the worker found and the signature of
    the transfer. *)
Definition try_payout (net : Network Keypair) (id : Z) (worker : option Worker)
  : Try (Worker * string) :=
  let* worker := match worker with
                 | None => throw (Err "Worker Not Found")
                 | Some worker => pure worker
                 end in
  let* parent := match PARENT_WALLET_PUBLIC_KEY with
                 | None | Some EmptyString => throw (Err "Set parent public key")
                 | Some parent => pure parent
                 end in
  let* _ := check (PublicKey_error parent) in
  let* _ := check (PublicKey_error (address worker)) in
  let amount :=
    double_div (double_mul (double_of_Z 1000000000) (double_of_Z (locked_amount worker)))
      (double_of_Z (Zpos TOTAL_DECIMALS)) in
  let* _ := check (transfer_error amount) in
  let transaction := mkTransfer parent (address worker) amount in
  let* shares := await_fetchShares net in
  let* keypair := from_result
                    (recoverPrivateKey THRESHOLD sss_combine bs58_decode
                       Keypair Keypair_fromSecretKey shares) in
  let* signature := await_sendTransaction net transaction keypair in
  let* _ := effect (log (LogPaid id amount signature)) in
  pure (worker, signature).

(** The first line a job logs. *)
Definition Initializing : LogLine :=
  LogText (newline ++ newline ++ "Initializing Transaction").

(** The processor of [payoutQueue]. Its promise is what the queue
    sees; [done] is never called. The store writes of the callback
    are committed when it returns and dropped when it throws. *)
Definition process_Queue (net : Network Keypair) (job : Job) (w : World)
  : Settled unit * World :=
  let id := workerId job in
  let w := log Initializing w in
  let worker := findUnique id (db w) in
  match try_payout net id worker w with
  | (inl error, w) => (Fulfilled tt, log (LogText (message_of error)) w)
  | (inr (worker, signature), w) =>
      match worker_update id (decrement_locked (locked_amount worker)) (db w) with
      | None => (Rejected RecordNotFound, w)
      | Some (_, d) =>
          let d := payouts_create
                     (mkPayout id (locked_amount worker) Success signature) d in
          (Fulfilled tt,
           log (LogText ("Worker's locked amount and payout is cleared, Transaction Successful."
                         ++ newline ++ newline))
             (with_db d w))
      end
  end.

(** The job, run on [w], gets through its [try] block: the transfer
    was accepted with [signature]. *)
Definition pays (net : Network Keypair) (job : Job) (w : World) (signature : string)
  : Prop :=
  exists worker w',
    try_payout net (workerId job) (findUnique (workerId job) (db w)) (log Initializing w)
    = (inr (worker, signature), w').

End Settlement.

(** ** A concrete environment

    Stand-ins for what lies outside the repository, used to run the
    handlers on concrete inputs: Shamir's scheme over GF(2^8) with one
    polynomial per secret byte, base-58 decoding, a keypair that is its
    64 secret-key bytes, five share servers and a ledger network. They
    are not the npm libraries, and what holds of a stand-in is not
    thereby claimed of the library it stands for. *)

Module Demo.

(** Arithmetic of GF(2^8) on the numbers below 256, reduced by
    x^8 + x^4 + x^3 + x + 1. *)
Definition gf_add (a b : N) : N := N.lxor a b.

Definition xtime (a : N) : N :=
  let d := N.shiftl a 1 in
  if (256 <=? d)%N then N.lxor d 283 else d.

Fixpoint gf_mul_bits (bits : nat) (a b : N) : N :=
  match bits with
  | O => 0%N
  | S bits' =>
      N.lxor (if N.odd b then a else 0%N) (gf_mul_bits bits' (xtime a) (N.div2 b))
  end.

Definition gf_mul (a b : N) : N := gf_mul_bits 8 a b.

Fixpoint gf_pow (n : nat) (a : N) : N :=
  match n with
  | O => 1%N
  | S n' => gf_mul a (gf_pow n' a)
  end.

Definition gf_div (a b : N) : N := gf_mul a (gf_pow 254 b).

(** Horner evaluation, constant coefficient first. *)
Fixpoint poly_eval (coefficients : list N) (x : N) : N :=
  match coefficients with
  | [] => 0%N
  | c :: rest => gf_add c (gf_mul x (poly_eval rest x))
  end.

Definition byte_of (n : N) : byte :=
  match Byte.of_N n with
  | Some b => b
  | None => x00
  end.

(** The polynomial of the secret byte at position [j]: the byte, then
    [k - 1] coefficients read from the seed. *)
Definition coefficients (seed : list byte) (k j : nat) (s : byte) : list N :=
  Byte.to_N s ::
  map (fun t => Byte.to_N (nth ((j * (k - 1) + t) mod (length seed)) seed x00))
      (seq 0 (k - 1)).

(** The share of abscissa [x]: [x], then the value at [x] of each
    byte's polynomial. *)
Definition share_at (seed : list byte) (k : nat) (secret : list byte) (x : nat)
  : list byte :=
  byte_of (N.of_nat x) ::
  imap (fun j s => byte_of (poly_eval (coefficients seed k j s) (N.of_nat x))) secret.

Definition sss_split (seed : list byte) (secret : list byte) (n k : nat)
  : option (list (list byte)) :=
  if ((1 <=? k) && (k <=? n) && (n <=? 255) && (1 <=? length secret))%nat
  then Some (map (share_at seed k secret) (seq 1 n))
  else None.

Definition byte_value (v : JsNumber) : option N :=
  match v with
  | JsNat n => if (n <? 256)%N then Some n else None
  | JsNumberOf _ => None
  end.

Definition point_of (fragment : list JsNumber) : option (N * list N) :=
  match fragment with
  | [] => None
  | x :: ys =>
      x' ← byte_value x;
      ys' ← mapM byte_value ys;
      Some (x', ys')
  end.

(** The Lagrange coefficient at 0 of the abscissa [xi] among [xs]. *)
Definition weight (xs : list N) (xi : N) : N :=
  fold_right
    (fun xj acc => if (xj =? xi)%N then acc else gf_mul acc (gf_div xj (gf_add xj xi)))
    1%N xs.

(** The value at 0 of the polynomial through the points of abscissas
    [xs], with the Lagrange coefficients [ws], at the ordinates [ys]. *)
Definition interpolate (ws ys : list N) : N :=
  fold_right gf_add 0%N (zip_with gf_mul ys ws).

Fixpoint distinct (xs : list N) : bool :=
  match xs with
  | [] => true
  | x :: rest => negb (existsb (N.eqb x) rest) && distinct rest
  end.

Definition sss_combine (fragments : list (list JsNumber)) : option (list byte) :=
  points ← mapM point_of fragments;
  match points with
  | [] => None
  | (_, ys) :: _ =>
      let xs := map fst points in
      if distinct xs && forallb (fun x => negb (x =? 0)%N) xs
         && forallb (fun p => (length (snd p) =? length ys)%nat) points
      then
        let ws := map (weight xs) xs in
        Some (map (fun j => byte_of (interpolate ws
                                       (map (fun p => nth j (snd p) 0%N) points)))
                  (seq 0 (length ys)))
      else None
  end.

(** Base-58 decoding. *)
Definition alphabet : string :=
  "123456789ABCDEFGHJKLMNPQRSTUVWXYZabcdefghijkmnopqrstuvwxyz".

Fixpoint index_of (c : ascii) (s : string) (i : N) : option N :=
  match s with
  | EmptyString => None
  | String c' rest => if Ascii.eqb c c' then Some i else index_of c rest (i + 1)%N
  end.

Fixpoint base58_value (s : string) (acc : N) : option N :=
  match s with
  | EmptyString => Some acc
  | String c rest =>
      match index_of c alphabet 0 with
      | Some d => base58_value rest (58 * acc + d)%N
      | None => None
      end
  end.

Fixpoint leading_ones (s : string) : nat :=
  match s with
  | String "1" rest => S (leading_ones rest)
  | _ => O
  end.

Fixpoint big_endian (fuel : nat) (n : N) (acc : list byte) : list byte :=
  match fuel with
  | O => acc
  | S fuel' =>
      if (n =? 0)%N then acc
      else big_endian fuel' (n / 256)%N (byte_of (n mod 256)%N :: acc)
  end.

Definition bs58_decode (s : string) : option (list byte) :=
  v ← base58_value s 0;
  Some (repeat x00 (leading_ones s) ++ big_endian (N.to_nat (N.size v)) v []).

(** The ledger client. *)
Definition Keypair : Type := list byte.

Definition Keypair_fromSecretKey (secretKey : list byte) : option Keypair :=
  if (length secretKey =? 64)%nat then Some secretKey else None.

Definition PublicKey_error (text : string) : option Thrown :=
  match bs58_decode text with
  | None => Some (Err "Non-base58 character")
  | Some bytes =>
      if (length bytes =? 32)%nat then None else Some (Err "Invalid public key input")
  end.

Definition transfer_error (amount : double) : option Thrown :=
  match integer_of amount with
  | Some n =>
      if 0 <=? n then None
      else Some (Err "The value of lamports is out of range")
  | None =>
      Some (Err "The number cannot be converted to a BigInt because it is not an integer")
  end.

(** The configuration. *)
Definition TOTAL_DECIMALS : positive := 100000.
Definition THRESHOLD : nat := 3.
Definition SHARES : nat := 5.
Definition PARENT_WALLET_PUBLIC_KEY : option string :=
  Some "4wBqpZM9xaSheZzJSMawUKKwhdpChKbZ5eu5ky4Vigw".
Definition DISTRIBUTED_SERVER_ENDPOINTS : list string :=
  ["http://share1"; "http://share2"; "http://share3"; "http://share4"; "http://share5"].

(** The custodial key and its five shares. *)
Definition privateKey : string :=
  "2Ana1pUpv2ZbMVkwF5FXapYeBEjdxDatLn7nvJkhgTSXbs59SyZSx866bXirPgj8QQVB57uxHJBG1YFvkRbFj4T".

Definition seed : list byte := [x3a; xc5; x07; x91; xee; x42; x18; xb6; x6d; xf0; x2b].

Definition shares : list (list byte) :=
  default [] (sss_split seed (Buffer_from privateKey) SHARES THRESHOLD).

(** The share servers: server [i] serves share [i] when [up] says it
    is reachable. *)
Fixpoint position (url : string) (urls : list string) (i : nat) : option nat :=
  match urls with
  | [] => None
  | u :: rest => if String.eqb url u then Some i else position url rest (S i)
  end.

Definition serve (up : list bool) (url : string) : Reply :=
  match position url (map share_url DISTRIBUTED_SERVER_ENDPOINTS) 0 with
  | None => Unreachable (Err "getaddrinfo ENOTFOUND")
  | Some i =>
      if nth i up false
      then Responded (Data (ShareString (Uint8Array_toString (nth i shares []))))
      else Unreachable (Err "connect ECONNREFUSED")
  end.

(** The replies arrive in the order 3, 1, 5, 2, 4 of the servers. *)
Definition out_of_order : list nat := [1; 2; 0; 1; 0]%nat.

(** A network whose ledger accepts every transfer with [signature], and
    one whose ledger refuses every transfer. *)
Definition accepting (up : list bool) (signature : string) : Network Keypair :=
  mkNetwork Keypair (serve up) out_of_order (fun _ _ => inr signature).

Definition refusing (up : list bool) : Network Keypair :=
  mkNetwork Keypair (serve up) out_of_order
    (fun _ _ => inl (Err "failed to send transaction")).

(** A network whose ledger accepts transfers of up to [funds] lamports
    with [signature] and refuses larger ones: the paying wallet holds
    no more. *)
Definition funded (up : list bool) (funds : Z) (signature : string) : Network Keypair :=
  mkNetwork Keypair (serve up) out_of_order
    (fun transaction _ =>
       match integer_of (lamports transaction) with
       | Some n =>
           if n <=? funds then inr signature
           else inl (Err "Transfer: insufficient lamports")
       | None => inl (Err "failed to send transaction")
       end).

Definition all_up : list bool := [true; true; true; true; true].

(** One worker, with the given balances, and nothing else. *)
Definition worker_address : string := "7ppk9w8NHnH6ehajvJyU31VcMafwZ3ybRtJWumSyD2wd".

Definition world_with (pending locked : Z) (rows : list Payout) : World :=
  mkWorld (mkDb {[ 1 := mkWorker worker_address pending locked ]} rows) [] [] [].

Definition world_of (pending locked : Z) : World := world_with pending locked [].

Definition run_job (net : Network Keypair) (job : Job) (w : World)
  : Settled unit * World :=
  process_Queue TOTAL_DECIMALS THRESHOLD PARENT_WALLET_PUBLIC_KEY
    DISTRIBUTED_SERVER_ENDPOINTS sss_combine bs58_decode Keypair
    Keypair_fromSecretKey PublicKey_error transfer_error net job w.

Definition recover (sharesArray : list (list JsNumber)) : Thrown + Keypair :=
  recoverPrivateKey THRESHOLD sss_combine bs58_decode Keypair
    Keypair_fromSecretKey sharesArray.

(** The keypair of [privateKey]. *)
Definition keypair : Keypair :=
  default [] (bs58_decode privateKey ≫= Keypair_fromSecretKey).

(** The share with number [i], counted from 1 as in the [.env] file. *)
Definition share (i : nat) : list byte := nth (i - 1) shares [].

(** What [fetchShares] reads from the text of a share. *)
Definition as_fetched (chosen : list (list byte)) : list (list JsNumber) :=
  map (fun share => shareArray_of (Uint8Array_toString share)) chosen.

(** Only the first share server is reachable; only the last two are
    not. *)
Definition one_up : list bool := [true; false; false; false; false].
Definition three_up : list bool := [true; true; true; false; false].

End Demo.

(** ** [GET /payout]: the payout history *)

Definition get_payout (userId : Z) (w : World) : list Payout * World :=
  (payouts_findMany userId (db w), w).

(** What the store holds for a worker: the pending and the locked
    amount of the row, if there is one, and the amounts of the worker's
    payout rows. *)
Definition funds (id : Z) (d : Db) : Z :=
  match workers d !! id with
  | Some w => pending_amount w + locked_amount w
  | None => 0
  end
  + totalEarning (payouts_findMany id d).

(** No row has a negative balance. *)
Definition balances_nonnegative (d : Db) : Prop :=
  forall id w, workers d !! id = Some w -> 0 <= pending_amount w /\ 0 <= locked_amount w.

(** ** The middleware *)

(** What the middleware reads and writes on a request: the
    [authorization] header and the [userId] it attaches. *)
Record Request := mkRequest {
  authorization : option string;
  userId : option Z
}.

(** The middleware hands the request on, or answers 403. *)
Inductive Passage :=
| Next (req : Request)
| Status403 (message : string).

Section Middleware.

(** [jwt.verify(token, secret)] of jsonwebtoken: it throws, or returns
    the decoded payload, of which the code reads [userId]; [None] is a
    payload without one. The sign-in routes put the numeric id of a row
    there. *)
Variable jwt_verify : string -> string -> Thrown + option Z.

(** The secrets of the configuration module. *)
Variable JWT_SECRET : string.
Variable WORKER_JWT_SECRET : string.

Definition verifyJwt (secret : string) (req : Request) : Passage :=
  let authHeader := default EmptyString (authorization req) in
  match authHeader with
  | EmptyString => Status403 "Authorization header missing"
  | _ =>
      match jwt_verify authHeader secret with
      | inr decoded =>
          match decoded with
          | Some id =>
              if id =? 0 then Status403 "You are not logged in"
              else Next (mkRequest (authorization req) (Some id))
          | None => Status403 "You are not logged in"
          end
      | inl _ => Status403 "Invalid token or expired token"
      end
  end.

Definition authMiddleware (req : Request) : Passage := verifyJwt JWT_SECRET req.

Definition workerMiddleware (req : Request) : Passage := verifyJwt WORKER_JWT_SECRET req.

(** A worker route: [router.post(path, workerMiddleware, handler)]. The
    handler reads [Number(req.userId)]; the answer is the middleware's
    403 or the handler's. The middleware never hands on a request
    without a [userId], so the last branch is never taken. *)
Definition worker_route {A : Type} (handler : Z -> World -> A * World)
  (req : Request) (w : World) : (string + A) * World :=
  match workerMiddleware req with
  | Status403 message => (inl message, w)
  | Next req' =>
      match userId req' with
      | Some id => let '(a, w') := handler id w in (inr a, w')
      | None => (inl "You are not logged in", w)
      end
  end.

End Middleware.

(** ** [POST /signin] *)

(** The body once the schema has accepted it. *)
Record SigninBody := mkSigninBody {
  publicKey : string;
  signature_numbers : list Z
}.

Inductive SigninResponse :=
| Signin411 (message : string)
| SigninJson (token : string) (amount : Q)
| Signin500 (description : string).

(** [prismaClient.worker.findFirst({ where: { address } })]: a row with
    this address, with its key. The store does not say which one it
    returns when several match; the model takes the first in the order
    of the map. *)
Definition worker_by_address (a : string) (d : Db) : option (Z * Worker) :=
  List.find (fun row => String.eqb (address (snd row)) a) (map_to_list (workers d)).

Section Signin.

Variable TOTAL_DECIMALS : positive.
Variable WORKER_JWT_SECRET : string.

(** The libraries: whether the signature over the sign-in message
    verifies under the public key ([new PublicKey(publicKey).toBytes()]
    and [nacl.sign.detached.verify], either of which may throw), and
    [jwt.sign({ userId }, secret)]. *)
Variable signature_verifies : string -> list Z -> Thrown + bool.
Variable jwt_sign : Z -> string -> Thrown + string.

(** The key the store gives a new [Worker] row. *)
Variable assign_id : Db -> Z.

Definition post_signin (body : option SigninBody) (w : World) : SigninResponse * World :=
  match body with
  | None => (Signin411 "Invalid Inputs", w)
  | Some data =>
      match signature_verifies (publicKey data) (signature_numbers data) with
      | inl e => (Signin500 (message_of e), w)
      | inr false => (Signin411 "Incorrect signature", w)
      | inr true =>
          match worker_by_address (publicKey data) (db w) with
          | Some (id, existingUser) =>
              match jwt_sign id WORKER_JWT_SECRET with
              | inl e => (Signin500 (message_of e), w)
              | inr token =>
                  (SigninJson token (js_div (pending_amount existingUser) TOTAL_DECIMALS), w)
              end
          | None =>
              let id := assign_id (db w) in
              let user := mkWorker (publicKey data) 0 0 in
              let w := with_db (mkDb (<[id := user]> (workers (db w))) (payouts (db w))) w in
              match jwt_sign id WORKER_JWT_SECRET with
              | inl e => (Signin500 (message_of e), w)
              | inr token => (SigninJson token (inject_Z 0), w)
              end
          end
      end
  end.

End Signin.

(** No two rows carry the same address. *)
Definition addresses_unique (d : Db) : Prop :=
  forall i j wi wj,
    workers d !! i = Some wi -> workers d !! j = Some wj ->
    address wi = address wj -> i = j.

(** ** Tasks and submissions: [getNextTask], [GET /nextTask], [POST /submission] *)

(** A row of the [Task] table with the ids of its options, and a row of
    the [Submission] table. *)
Record Task := mkTask {
  task_id : Z;
  task_amount : Z;
  title : string;
  options : list Z;
  done : bool
}.

Record Submission := mkSubmission {
  submission_worker : Z;
  submission_task : Z;
  option_id : Z;
  submission_amount : Z
}.

(** The store with the two tables, in the order of their rows. *)
Record Desk := mkDesk {
  world : World;
  tasks : list Task;
  submissions : list Submission
}.

Definition with_world (w : World) (k : Desk) : Desk :=
  mkDesk w (tasks k) (submissions k).

(** [submissions: { none: { worker_id: userId } }] fails for a task
    that has a submission of this worker. *)
Definition submitted_by (userId : Z) (t : Task) (rows : list Submission) : bool :=
  existsb (fun row => (submission_task row =? task_id t) && (submission_worker row =? userId))
    rows.

(** [getNextTask]: the first task that is not done and has no
    submission of the worker. The selected columns are those of [Task]
    but [done], which is false. *)
Definition getNextTask (userId : Z) (k : Desk) : option Task :=
  List.find (fun t => negb (done t) && negb (submitted_by userId t (submissions k)))
    (tasks k).

Inductive NextTaskResponse :=
| NextTask411 (message : string)
| NextTaskJson (task : Task).

Definition get_nextTask (userId : Z) (k : Desk) : NextTaskResponse * Desk :=
  match getNextTask userId k with
  | None => (NextTask411 "No more tasks left for you to review", k)
  | Some task => (NextTaskJson task, k)
  end.

(** What [Number] makes of a field of the body: an integer, or a
    number that is none (NaN, a fraction), which equals no id and which
    the store refuses in an integer column. *)
Inductive NumberArg :=
| Int (n : Z)
| NotInt.

(** [Number(parsedBody.data.taskId)] and
    [Number(parsedBody.data.selection)]. *)
Record SubmissionInput := mkSubmissionInput {
  taskId : NumberArg;
  selection : NumberArg
}.

Inductive SubmissionResponse :=
| Submission411 (message : string)
| SubmissionJson (nextTask : option Task) (amount : Q).

(** The store's refusal of a write (the wording stands for Prisma's). *)
Definition StoreRefusal : Thrown := Err "Invalid `prisma` invocation".

(** The integer a number is stored as in an integer column; [None]
    when it is not an integer. *)
Definition stored (q : Q) : option Z :=
  if Qnum q mod Zpos (Qden q) =? 0 then Some (Qnum q / Zpos (Qden q)) else None.

(** The [data] of the crediting update. *)
Definition credit (amount : Z) (w : Worker) : Worker :=
  mkWorker (address w) (pending_amount w + amount) (locked_amount w).

Section Submission.

(** [TOTAL_SUBMISSIONS] of the configuration module. *)
Variable TOTAL_SUBMISSIONS : positive.

(** The foreign key of [option_id]: whether the store has the option
    row (always, if the schema declares no such key). *)
Variable option_exists : Z -> bool.

(** The callback of the transaction: the submission row is created and
    the worker credited, or the store refuses and nothing is kept. *)
Definition submit_and_credit (userId : Z) (task : Task) (choice : NumberArg)
  (amount : Q) (k : Desk) : Thrown + Desk :=
  match choice, stored amount with
  | Int option_id, Some n =>
      if option_exists option_id then
        match worker_update userId (credit n) (db (world k)) with
        | Some (_, d) =>
            inr (mkDesk (with_db d (world k)) (tasks k)
                   (submissions k ++ [mkSubmission userId (task_id task) option_id n]))
        | None => inl StoreRefusal
        end
      else inl StoreRefusal
  | _, _ => inl StoreRefusal
  end.

(** The handler; [None] is a body the schema refuses. A refusal of the
    store is not caught: the handler's promise is rejected. *)
Definition post_submission (userId : Z) (parsedBody : option SubmissionInput) (k : Desk)
  : Settled SubmissionResponse * Desk :=
  match parsedBody with
  | Some data =>
      match getNextTask userId k with
      | None => (Fulfilled (Submission411 "Incorrect task id"), k)
      | Some task =>
          match taskId data with
          | Int n =>
              if task_id task =? n then
                let amount := js_div (task_amount task) TOTAL_SUBMISSIONS in
                match submit_and_credit userId task (selection data) amount k with
                | inl e => (Rejected e, k)
                | inr k' =>
                    let nextTask := getNextTask userId k' in
                    (Fulfilled (SubmissionJson nextTask amount), k')
                end
              else (Fulfilled (Submission411 "Incorrect task id"), k)
          | NotInt => (Fulfilled (Submission411 "Incorrect task id"), k)
          end
      end
  | None => (Fulfilled (Submission411 "Incorrect inputs"), k)
  end.

End Submission.

(** What the submissions of a worker have credited. *)
Definition credited (userId : Z) (rows : list Submission) : Z :=
  fold_right Z.add 0
    (map submission_amount
       (List.filter (fun row => submission_worker row =? userId) rows)).

(** No worker has two submissions for one task. *)
Definition one_submission_each (rows : list Submission) : Prop :=
  NoDup (map (fun row => (submission_worker row, submission_task row)) rows).

(** ** Sequences of requests and jobs *)

(** What the store owes a worker beyond what the submissions credited:
    kept at the same value by every operation below. *)
Definition unaccounted (userId : Z) (k : Desk) : Z :=
  funds userId (db (world k)) - credited userId (submissions k).

Section Operations.

Variable TOTAL_DECIMALS : positive.
Variable TOTAL_SUBMISSIONS : positive.
Variable THRESHOLD : nat.
Variable PARENT_WALLET_PUBLIC_KEY : option string.
Variable DISTRIBUTED_SERVER_ENDPOINTS : list string.
Variable WORKER_JWT_SECRET : string.
Variable sss_combine : list (list JsNumber) -> option (list byte).
Variable bs58_decode : string -> option (list byte).
Variable Keypair : Type.
Variable Keypair_fromSecretKey : list byte -> option Keypair.
Variable PublicKey_error : string -> option Thrown.
Variable transfer_error : double -> option Thrown.
Variable signature_verifies : string -> list Z -> Thrown + bool.
Variable jwt_sign : Z -> string -> Thrown + string.
Variable assign_id : Db -> Z.
Variable option_exists : Z -> bool.

(** A request to one of the worker routes that write, past the
    middleware, or a job taken by the queue processor. *)
Inductive Operation :=
| Signin (body : option SigninBody)
| Submit (userId : Z) (parsedBody : option SubmissionInput)
| Lock (userId : Z)
| Settle (net : Network Keypair) (job : Job).

Definition perform (op : Operation) (k : Desk) : Desk :=
  match op with
  | Signin body =>
      with_world
        (snd (post_signin TOTAL_DECIMALS WORKER_JWT_SECRET signature_verifies jwt_sign
                assign_id body (world k))) k
  | Submit userId parsedBody =>
      snd (post_submission TOTAL_SUBMISSIONS option_exists userId parsedBody k)
  | Lock userId => with_world (snd (post_payout TOTAL_DECIMALS userId (world k))) k
  | Settle net job =>
      with_world
        (snd (process_Queue TOTAL_DECIMALS THRESHOLD PARENT_WALLET_PUBLIC_KEY
                DISTRIBUTED_SERVER_ENDPOINTS sss_combine bs58_decode Keypair
                Keypair_fromSecretKey PublicKey_error transfer_error net job (world k))) k
  end.

Definition perform_all (ops : list Operation) (k : Desk) : Desk :=
  fold_left (fun k op => perform op k) ops k.

End Operations.

(** ** A concrete environment for the routes *)

Module Bench.

(** Stand-ins for jsonwebtoken: a token is the secret, a dot and the
    id in decimal. *)
Fixpoint strip (prefix s : string) : option string :=
  match prefix, s with
  | EmptyString, _ => Some s
  | String a prefix', String b s' => if Ascii.eqb a b then strip prefix' s' else None
  | String _ _, EmptyString => None
  end.

Definition jwt_sign (id : Z) (secret : string) : Thrown + string :=
  match secret with
  | EmptyString => inl (Err "secretOrPrivateKey must have a value")
  | _ => inr (secret ++ "." ++ decimal (Z.to_N id))%string
  end.

Definition jwt_verify (token secret : string) : Thrown + option Z :=
  match strip (secret ++ ".") token with
  | Some EmptyString => inr None
  | Some digits =>
      match digits_value digits 0 with
      | Some n => inr (Some (Z.of_N n))
      | None => inl (Err "jwt malformed")
      end
  | None => inl (Err "invalid signature")
  end.

Definition JWT_SECRET : string := "user-secret".
Definition WORKER_JWT_SECRET : string := "worker-secret".

(** A signature verifies when it is the bytes 1, 2, 3; a public key
    that is no key makes the check throw. *)
Definition signature_verifies (publicKey : string) (signature : list Z) : Thrown + bool :=
  match Demo.PublicKey_error publicKey with
  | Some e => inl e
  | None => inr (bool_decide (signature = [1; 2; 3]))
  end.

(** The store numbers new rows with a key that is not in use and is
    not 0. *)
Definition assign_id (d : Db) : Z := fresh ({[0]} ∪ dom (workers d)).

Definition TOTAL_SUBMISSIONS : positive := 100.

Definition option_exists (option_id : Z) : bool := bool_decide (option_id ∈ [11; 12; 21; 22]).

(** Two tasks of 400000 units each, that is 4000 units a submission. *)
Definition two_tasks : list Task :=
  [mkTask 1 400000 "Pick the better thumbnail" [11; 12] false;
   mkTask 2 400000 "Pick the better logo" [21; 22] false].

Definition desk_of (w : World) : Desk := mkDesk w two_tasks [].

Definition Operation : Type := Operation Demo.Keypair.

Definition perform_all (ops : list Operation) (k : Desk) : Desk :=
  perform_all Demo.TOTAL_DECIMALS TOTAL_SUBMISSIONS Demo.THRESHOLD
    Demo.PARENT_WALLET_PUBLIC_KEY Demo.DISTRIBUTED_SERVER_ENDPOINTS WORKER_JWT_SECRET
    Demo.sss_combine Demo.bs58_decode Demo.Keypair Demo.Keypair_fromSecretKey
    Demo.PublicKey_error Demo.transfer_error signature_verifies jwt_sign assign_id
    option_exists ops k.

Definition no_world : World := mkWorld (mkDb ∅ []) [] [] [].

Definition signin (body : option SigninBody) (w : World) : SigninResponse * World :=
  post_signin Demo.TOTAL_DECIMALS WORKER_JWT_SECRET signature_verifies jwt_sign assign_id
    body w.

Definition submit (userId : Z) (parsedBody : option SubmissionInput) (k : Desk)
  : Settled SubmissionResponse * Desk :=
  post_submission TOTAL_SUBMISSIONS option_exists userId parsedBody k.

(** A wallet signs in. *)
Definition hello : option SigninBody := Some (mkSigninBody Demo.worker_address [1; 2; 3]).

(** A worker's day: sign in, answer the first task, ask for a payout,
    answer the second task, send that answer once more, ask for a
    payout again, and a job runs. *)
Definition day : list Operation :=
  [Signin Demo.Keypair hello;
   Submit Demo.Keypair 1 (Some (mkSubmissionInput (Int 1) (Int 11)));
   Lock Demo.Keypair 1;
   Submit Demo.Keypair 1 (Some (mkSubmissionInput (Int 2) (Int 22)));
   Submit Demo.Keypair 1 (Some (mkSubmissionInput (Int 2) (Int 22)));
   Lock Demo.Keypair 1;
   Settle Demo.Keypair (Demo.accepting Demo.all_up "SIG1") (mkJob 1)].

End Bench.

(** * Properties *)

(** ** Locking *)

Section LockProperties.

Variable TOTAL_DECIMALS : positive.

Lemma lock_success (id : Z) (d : Db) (worker : Worker) :
  findUnique id d = Some worker ->
  3000 <= pending_amount worker ->
  lock TOTAL_DECIMALS id d =
    inr (js_div (locked_amount worker + pending_amount worker) TOTAL_DECIMALS,
         mkDb (<[id := mkWorker (address worker) 0
                          (locked_amount worker + pending_amount worker)]>
                 (workers d))
              (payouts d)).
Proof.
  intros Hfound Hmin. unfold lock. rewrite Hfound.
  destruct (Z.ltb_spec (pending_amount worker) 3000) as [Hlt | _]; [lia |].
  unfold worker_update. unfold findUnique in Hfound. rewrite Hfound.
  unfold move_to_locked. cbn [locked_amount]. rewrite Z.sub_diag. reflexivity.
Qed.

Lemma lock_not_found (id : Z) (d : Db) :
  findUnique id d = None -> lock TOTAL_DECIMALS id d = inl NotFound.
Proof. intros Hnone. unfold lock. rewrite Hnone. reflexivity. Qed.

Lemma lock_below_minimum (id : Z) (d : Db) (worker : Worker) :
  findUnique id d = Some worker ->
  pending_amount worker < 3000 ->
  lock TOTAL_DECIMALS id d = inl InsufficientBalance.
Proof.
  intros Hfound Hlow. unfold lock. rewrite Hfound.
  destruct (Z.ltb_spec (pending_amount worker) 3000) as [_ | Hge]; [reflexivity | lia].
Qed.

End LockProperties.

(** C2. The lock fails with NotFound when the worker does not exist and
    with InsufficientBalance when [pending_amount] is below 3000; in both
    cases the handler answers 500 with the error's message, the store
    (hence the worker's balances) is unchanged and no job is enqueued. *)
Theorem lock_failure_changes_nothing (TOTAL_DECIMALS : positive) (id : Z) (w : World) :
  (findUnique id (db w) = None ->
     lock TOTAL_DECIMALS id (db w) = inl NotFound
     /\ fst (post_payout TOTAL_DECIMALS id w) = Error500 (message_of NotFound)
     /\ db (snd (post_payout TOTAL_DECIMALS id w)) = db w
     /\ queue (snd (post_payout TOTAL_DECIMALS id w)) = queue w)
  /\ (forall worker,
        findUnique id (db w) = Some worker ->
        pending_amount worker < 3000 ->
        lock TOTAL_DECIMALS id (db w) = inl InsufficientBalance
        /\ fst (post_payout TOTAL_DECIMALS id w) = Error500 (message_of InsufficientBalance)
        /\ db (snd (post_payout TOTAL_DECIMALS id w)) = db w
        /\ queue (snd (post_payout TOTAL_DECIMALS id w)) = queue w).
Proof.
  split.
  - intros Hnone. pose proof (lock_not_found TOTAL_DECIMALS id (db w) Hnone) as Hlock.
    split; [exact Hlock |].
    unfold post_payout, transaction. cbn [db log]. rewrite Hlock. cbn. auto.
  - intros worker Hfound Hlow.
    pose proof (lock_below_minimum TOTAL_DECIMALS id (db w) worker Hfound Hlow) as Hlock.
    split; [exact Hlock |].
    unfold post_payout, transaction. cbn [db log]. rewrite Hlock. cbn. auto.
Qed.

(** Scenario B: a worker with 1000 pending is refused, and asking for a
    worker that does not exist is refused as well. *)
Lemma lock_failure_changes_nothing_witness :
  (lock Demo.TOTAL_DECIMALS 2 (db (Demo.world_of 1000 0)) = inl NotFound
   /\ queue (snd (post_payout Demo.TOTAL_DECIMALS 2 (Demo.world_of 1000 0))) = [])
  /\ (lock Demo.TOTAL_DECIMALS 1 (db (Demo.world_of 1000 0)) = inl InsufficientBalance
      /\ db (snd (post_payout Demo.TOTAL_DECIMALS 1 (Demo.world_of 1000 0)))
         = db (Demo.world_of 1000 0)
      /\ queue (snd (post_payout Demo.TOTAL_DECIMALS 1 (Demo.world_of 1000 0))) = []).
Proof.
  split.
  - destruct (lock_failure_changes_nothing Demo.TOTAL_DECIMALS 2 (Demo.world_of 1000 0))
      as [Hmissing _].
    destruct (Hmissing ltac:(reflexivity)) as (Hlock & _ & _ & Hqueue).
    split; [exact Hlock | exact Hqueue].
  - destruct (lock_failure_changes_nothing Demo.TOTAL_DECIMALS 1 (Demo.world_of 1000 0))
      as [_ Hlow].
    destruct (Hlow (mkWorker Demo.worker_address 1000 0) ltac:(reflexivity) ltac:(cbn; lia))
      as (Hlock & _ & Hdb & Hqueue).
    split; [exact Hlock | split; [exact Hdb | exact Hqueue]].
Defined.

(** C1, as the code has it. For a worker that exists with at least 3000
    pending, the lock moves the whole pending amount to [locked_amount]
    in one update ([pending_amount] becomes 0, [locked_amount] grows by
    the amount), leaves every other row and the payouts alone, enqueues
    one job for the worker, and answers with the new [locked_amount]
    divided by [TOTAL_DECIMALS]; a worker with 5000 pending and nothing
    locked ends with 0 pending and 5000 locked. *)
Theorem lock_moves_pending_to_locked
  (TOTAL_DECIMALS : positive) (id : Z) (w : World) (worker : Worker) :
  findUnique id (db w) = Some worker ->
  3000 <= pending_amount worker ->
  let locked' := locked_amount worker + pending_amount worker in
  let w' := snd (post_payout TOTAL_DECIMALS id w) in
  fst (post_payout TOTAL_DECIMALS id w) = Ok200 (js_div locked' TOTAL_DECIMALS)
  /\ findUnique id (db w') = Some (mkWorker (address worker) 0 locked')
  /\ (forall other, other <> id -> findUnique other (db w') = findUnique other (db w))
  /\ payouts (db w') = payouts (db w)
  /\ queue w' = queue w ++ [mkJob id]
  /\ (pending_amount worker = 5000 -> locked_amount worker = 0 ->
      findUnique id (db w') = Some (mkWorker (address worker) 0 5000)).
Proof.
  intros Hfound Hmin locked' w'.
  pose proof (lock_success TOTAL_DECIMALS id (db w) worker Hfound Hmin) as Hlock.
  assert (Hrun : post_payout TOTAL_DECIMALS id w =
                 (Ok200 (js_div locked' TOTAL_DECIMALS),
                  enqueue (mkJob id)
                    (with_db (mkDb (<[id := mkWorker (address worker) 0 locked']>
                                      (workers (db w))) (payouts (db w)))
                       (log (LogNumber id) w)))).
  { unfold post_payout, transaction. cbn [db log]. rewrite Hlock. reflexivity. }
  subst w'. rewrite Hrun. cbn [fst snd db enqueue with_db queue log payouts].
  assert (Hrow : findUnique id
                   (mkDb (<[id := mkWorker (address worker) 0 locked']> (workers (db w)))
                      (payouts (db w)))
                 = Some (mkWorker (address worker) 0 locked')).
  { unfold findUnique. cbn [workers]. apply lookup_insert_eq. }
  repeat split; try reflexivity.
  - exact Hrow.
  - intros other Hother. unfold findUnique. cbn [workers].
    apply lookup_insert_ne. congruence.
  - intros H5000 H0. rewrite Hrow. subst locked'. rewrite H5000, H0. reflexivity.
Qed.

(** Scenario A, run. *)
Lemma lock_moves_pending_to_locked_witness :
  findUnique 1 (db (snd (post_payout Demo.TOTAL_DECIMALS 1 (Demo.world_of 5000 0))))
  = Some (mkWorker Demo.worker_address 0 5000)
  /\ queue (snd (post_payout Demo.TOTAL_DECIMALS 1 (Demo.world_of 5000 0))) = [mkJob 1].
Proof.
  destruct (lock_moves_pending_to_locked Demo.TOTAL_DECIMALS 1 (Demo.world_of 5000 0)
              (mkWorker Demo.worker_address 5000 0)
              ltac:(reflexivity) ltac:(cbn; lia))
    as (_ & Hrow & _ & _ & Hqueue & _).
  split; [exact Hrow | exact Hqueue].
Defined.

(** C1 as stated fails on the value returned: with 100000 units to the
    SOL, the lock of 5000 pending leaves 5000 locked and answers 1/20,
    which is not 5000. *)
Lemma lock_answer_is_not_the_locked_amount :
  let w' := snd (post_payout Demo.TOTAL_DECIMALS 1 (Demo.world_of 5000 0)) in
  locked_amount <$> findUnique 1 (db w') = Some 5000
  /\ exists lockedAmount,
       fst (post_payout Demo.TOTAL_DECIMALS 1 (Demo.world_of 5000 0)) = Ok200 lockedAmount
       /\ Qeq lockedAmount (Qmake 1 20)
       /\ ~ Qeq lockedAmount (inject_Z 5000).
Proof.
  split; [reflexivity |].
  exists (Qmake 5000 100000). split; [reflexivity |].
  split; [reflexivity | discriminate].
Qed.

(** ** Reading balances and earnings *)

Lemma get_balance_reads (id : Z) (w : World) (worker : Worker) :
  findFirst id (db w) = Some worker ->
  get_balance id w
  = (mkBalanceJson (Some (pending_amount worker)) (Some (pending_amount worker)), w).
Proof. intros Hfound. unfold get_balance. rewrite Hfound. reflexivity. Qed.

(** C9, at a worker with 100 pending and 5000 locked: the balance read
    changes nothing and reports the pending amount correctly, but its
    [lockedAmount] is 100, the pending amount, where the worker's
    [locked_amount] is 5000. *)
Theorem balance_reports_pending_as_locked :
  findFirst 1 (db (Demo.world_of 100 5000)) = Some (mkWorker Demo.worker_address 100 5000)
  /\ get_balance 1 (Demo.world_of 100 5000)
     = (mkBalanceJson (Some 100) (Some 100), Demo.world_of 100 5000).
Proof. split; reflexivity. Qed.

Lemma fold_left_add_shift (ps : list Payout) (acc : Z) :
  fold_left (fun acc payout => acc + amount payout) ps acc
  = acc + fold_right Z.add 0 (map amount ps).
Proof.
  revert acc. induction ps as [| p ps IH]; intros acc; cbn.
  - lia.
  - rewrite IH. lia.
Qed.

Lemma totalEarning_sum (ps : list Payout) :
  totalEarning ps = fold_right Z.add 0 (map amount ps).
Proof. unfold totalEarning. rewrite fold_left_add_shift. lia. Qed.

Lemma totalEarning_app (ps qs : list Payout) :
  totalEarning (ps ++ qs) = totalEarning ps + totalEarning qs.
Proof.
  rewrite !totalEarning_sum, map_app.
  induction (map amount ps) as [| a l IH]; cbn; lia.
Qed.

Lemma totalEarning_by_status (id : Z) (ps : list Payout) :
  totalEarning (List.filter (fun p => Z.eqb (worker_id p) id) ps)
  = amount_with_status id Success ps
    + amount_with_status id Failed ps
    + amount_with_status id Pending ps.
Proof.
  rewrite totalEarning_sum. unfold amount_with_status.
  induction ps as [| p ps IH]; [reflexivity |].
  cbn [List.filter]. destruct (worker_id p =? id); cbn [andb].
  - destruct (status p); cbn [status_eqb map fold_right]; lia.
  - exact IH.
Qed.

(** C10. For a worker that exists, the earning [/me] reports is the
    sum of the amounts of all of the worker's payout rows, whatever
    their status, over [TOTAL_DECIMALS]: the rows with status Success,
    Failed and Pending all count, and a further Failed row of the worker
    raises the total by its amount. The store is not changed. *)
Theorem me_earning_counts_every_status
  (TOTAL_DECIMALS : positive) (id : Z) (w : World) (existingUser : Worker) :
  findFirst id (db w) = Some existingUser ->
  let total :=
    amount_with_status id Success (payouts (db w))
    + amount_with_status id Failed (payouts (db w))
    + amount_with_status id Pending (payouts (db w)) in
  get_me TOTAL_DECIMALS id w
  = (MeJson existingUser
       (js_div (locked_amount existingUser) TOTAL_DECIMALS)
       (js_div (pending_amount existingUser) TOTAL_DECIMALS)
       (js_div total TOTAL_DECIMALS), w)
  /\ forall failed,
       worker_id failed = id -> status failed = Failed ->
       get_me TOTAL_DECIMALS id (with_db (payouts_create failed (db w)) w)
       = (MeJson existingUser
            (js_div (locked_amount existingUser) TOTAL_DECIMALS)
            (js_div (pending_amount existingUser) TOTAL_DECIMALS)
            (js_div (total + amount failed) TOTAL_DECIMALS),
          with_db (payouts_create failed (db w)) w).
Proof.
  intros Hfound total. split.
  - unfold get_me. rewrite Hfound. unfold payouts_findMany.
    rewrite totalEarning_by_status. reflexivity.
  - intros failed Hid Hstatus. unfold get_me.
    replace (findFirst id (db (with_db (payouts_create failed (db w)) w)))
      with (Some existingUser) by (symmetry; exact Hfound).
    unfold payouts_findMany. cbn [db with_db payouts_create payouts].
    rewrite List.filter_app, totalEarning_app, totalEarning_by_status.
    cbn [List.filter]. rewrite Hid, Z.eqb_refl.
    unfold totalEarning. cbn [fold_left]. reflexivity.
Qed.

(** A worker with a Success row of 5000 and a Failed row of 700: the
    earning is 5700 over [TOTAL_DECIMALS]. *)
Lemma me_earning_counts_every_status_witness :
  fst (get_me Demo.TOTAL_DECIMALS 1
         (Demo.world_with 0 0
            [mkPayout 1 5000 Success "SIG1"; mkPayout 1 700 Failed EmptyString]))
  = MeJson (mkWorker Demo.worker_address 0 0)
      (js_div 0 Demo.TOTAL_DECIMALS) (js_div 0 Demo.TOTAL_DECIMALS)
      (js_div 5700 Demo.TOTAL_DECIMALS).
Proof.
  destruct (me_earning_counts_every_status Demo.TOTAL_DECIMALS 1
              (Demo.world_with 0 0 [mkPayout 1 5000 Success "SIG1"])
              (mkWorker Demo.worker_address 0 0) ltac:(reflexivity))
    as [_ Hfailed].
  specialize (Hfailed (mkPayout 1 700 Failed EmptyString)
                ltac:(reflexivity) ltac:(reflexivity)).
  exact (f_equal fst Hfailed).
Defined.

(** ** Writing a share and reading it back *)

Example toString_of_three_bytes :
  Uint8Array_toString [x00; x0a; xff] = "0,10,255".
Proof. reflexivity. Qed.

Example shareArray_of_three_bytes :
  shareArray_of "0,10,255" = [JsNat 0; JsNat 10; JsNat 255].
Proof. reflexivity. Qed.

Example shareArray_of_a_gap : shareArray_of "1,,2" = [JsNat 1; JsNat 0; JsNat 2].
Proof. reflexivity. Qed.

Example shareArray_of_other_text : shareArray_of "abc" = [JsNumberOf "abc"].
Proof. reflexivity. Qed.

Example env_entry_of_a_share :
  env_entry 0 [x01; x80]
  = ("# SHARE_1 " ++ newline ++ "SHARE=" ++ dquote ++ "1,128" ++ dquote ++ " " ++ newline)%string.
Proof. reflexivity. Qed.

Lemma split_free (sep : ascii) (s : string) :
  free_of sep s = true -> split sep s = [s].
Proof.
  induction s as [| c rest IH]; [reflexivity |].
  cbn -[Ascii.eqb]. destruct (Ascii.eqb c sep); [discriminate |].
  cbn -[Ascii.eqb]. intros Hrest. rewrite (IH Hrest). reflexivity.
Qed.

Lemma split_app (sep : ascii) (piece rest : string) :
  free_of sep piece = true ->
  split sep (piece ++ String sep rest) = piece :: split sep rest.
Proof.
  induction piece as [| c piece IH].
  - intros _. change (split sep (String sep rest) = EmptyString :: split sep rest).
    cbn -[Ascii.eqb]. rewrite Ascii.eqb_refl. reflexivity.
  - change (String c piece ++ String sep rest)%string
      with (String c (piece ++ String sep rest)%string).
    cbn -[Ascii.eqb]. destruct (Ascii.eqb c sep); [discriminate |].
    cbn -[Ascii.eqb]. intros Hpiece. rewrite (IH Hpiece). reflexivity.
Qed.

Lemma split_join (sep : ascii) (pieces : list string) :
  pieces <> [] ->
  Forall (fun piece => free_of sep piece = true) pieces ->
  split sep (join sep pieces) = pieces.
Proof.
  induction pieces as [| piece rest IH]; [congruence |].
  intros _ Hfree. inversion Hfree as [| ? ? Hpiece Hrest]; subst.
  destruct rest as [| next rest].
  - cbn. apply split_free. exact Hpiece.
  - change (join sep (piece :: next :: rest))
      with (piece ++ String sep (join sep (next :: rest)))%string.
    rewrite (split_app _ _ _ Hpiece), IH; [reflexivity | congruence | exact Hrest].
Qed.

Lemma decimal_byte_free (b : byte) : free_of comma (decimal (Byte.to_N b)) = true.
Proof. destruct b; reflexivity. Qed.

Lemma Number_decimal_byte (b : byte) :
  Number (decimal (Byte.to_N b)) = JsNat (Byte.to_N b).
Proof. destruct b; reflexivity. Qed.

(** What [fetchShares] reads from the text [createShares] wrote for a
    share is the share's bytes. *)
Lemma shareArray_of_toString (share : list byte) :
  share <> [] -> shareArray_of (Uint8Array_toString share) = numbers_of share.
Proof.
  intros Hnonempty. unfold shareArray_of, Uint8Array_toString, numbers_of.
  rewrite split_join.
  - rewrite map_map. apply map_ext. intros b. apply Number_decimal_byte.
  - destruct share; [congruence | discriminate].
  - apply Forall_map, Forall_forall. intros b _. apply decimal_byte_free.
Qed.

(** ** Fetching the shares *)

Lemma request_settles (reply : Reply) (st : FetchState) :
  request reply st
  = (Fulfilled tt,
     mkFetchState
       (sharesArray st ++ option_list (fragment_of reply))
       (fetch_console st
        ++ option_list ((fun e => LogText (message_of e)) <$> failure_of reply))).
Proof.
  destruct st as [arr con].
  destruct reply as [e | [| | [| [| c rest] |]]]; cbn;
    rewrite ?app_nil_r; reflexivity.
Qed.

Lemma run_requests_settle (replies : list Reply) (st : FetchState) :
  run_requests replies st
  = (map (fun _ => Fulfilled tt) replies,
     mkFetchState
       (sharesArray st ++ omap fragment_of replies)
       (fetch_console st
        ++ map (fun e => LogText (message_of e)) (omap failure_of replies))).
Proof.
  revert st. induction replies as [| reply rest IH]; intros st.
  - cbn. rewrite !app_nil_r. destruct st; reflexivity.
  - cbn [run_requests]. rewrite request_settles, IH. cbn [sharesArray fetch_console].
    rewrite <- !app_assoc. change (omap ?f (reply :: rest)) with
      (match f reply with Some y => y :: omap f rest | None => omap f rest end).
    destruct (fragment_of reply), (failure_of reply); reflexivity.
Qed.

Lemma Promise_all_fulfilled (replies : list Reply) :
  Promise_all (map (fun _ : Reply => Fulfilled tt) replies)
  = Fulfilled (map (fun _ => tt) replies).
Proof.
  induction replies as [| r rest IH]; [reflexivity |].
  cbn. rewrite IH. reflexivity.
Qed.

Lemma arrange_Permutation {A : Type} (schedule : list nat) (requests : list A) :
  arrange schedule requests ≡ₚ requests.
Proof.
  revert schedule. induction requests as [| first later IH]; intros schedule; [reflexivity |].
  cbn [arrange]. rewrite <- Permutation_middle. constructor.
  rewrite take_drop. apply IH.
Qed.

Lemma fetchShares_run (DISTRIBUTED_SERVER_ENDPOINTS : list string)
  (get : string -> Reply) (schedule : list nat) :
  fetchShares DISTRIBUTED_SERVER_ENDPOINTS get schedule
  = let replies := arrange schedule (map get (map share_url DISTRIBUTED_SERVER_ENDPOINTS)) in
    mkFetchRun (map share_url DISTRIBUTED_SERVER_ENDPOINTS)
      (Fulfilled (omap fragment_of replies))
      (map (fun e => LogText (message_of e)) (omap failure_of replies)).
Proof.
  unfold fetchShares. rewrite run_requests_settle, Promise_all_fulfilled. reflexivity.
Qed.

(** The fragments of the replies are the parsed texts of their
    shares. *)
Lemma fragments_of_texts (replies : list Reply) :
  omap fragment_of replies = map shareArray_of (omap share_text replies).
Proof.
  induction replies as [| reply rest IH]; [reflexivity |].
  change (omap ?f (reply :: rest)) with
    (match f reply with Some y => y :: omap f rest | None => omap f rest end).
  destruct reply as [e | [| | [| [| c text] |]]]; cbn [fragment_of share_text map];
    rewrite IH; reflexivity.
Qed.

(** Every reply is of exactly one kind: it delivers a fragment, it
    leaves an error, or it is passed over. *)
Lemma replies_accounted (replies : list Reply) :
  (length (omap fragment_of replies) + length (omap failure_of replies)
   + length (List.filter skipped replies))%nat
  = length replies.
Proof.
  induction replies as [| reply rest IH]; [reflexivity |].
  change (omap ?f (reply :: rest)) with
    (match f reply with Some y => y :: omap f rest | None => omap f rest end).
  destruct reply as [e | [| | [| [| c text] |]]];
    cbn [fragment_of failure_of skipped List.filter length]; lia.
Qed.

Lemma toString_nonempty_text (share : list byte) (c : ascii) (text : string) :
  Uint8Array_toString share = String c text -> share <> [].
Proof. intros Htext ->. discriminate Htext. Qed.

(** C7, as the code has it. [fetchShares] requests the share URL of
    each configured endpoint once, and its promise is always fulfilled,
    in whatever order the requests settle. The array it resolves to
    holds one fragment for each response whose [share] is a non-empty
    string, however few: the text split at the commas and read as
    numbers, which for the text of a byte array is the bytes. A request
    that is rejected ([axios.get] rejects, the response has no body, or
    its [share] is a truthy value that is no string) leaves its error's
    message on the console; a response whose [share] is falsy is passed
    over and leaves nothing. Every endpoint is one of the three. *)
Theorem fetchShares_collects_what_arrives
  (DISTRIBUTED_SERVER_ENDPOINTS : list string) (get : string -> Reply)
  (schedule : list nat) :
  let run := fetchShares DISTRIBUTED_SERVER_ENDPOINTS get schedule in
  let replies := map get (fetch_urls run) in
  fetch_urls run = map share_url DISTRIBUTED_SERVER_ENDPOINTS
  /\ length (fetch_urls run) = length DISTRIBUTED_SERVER_ENDPOINTS
  /\ (exists sharesArray,
        fetched run = Fulfilled sharesArray
        /\ sharesArray ≡ₚ map shareArray_of (omap share_text replies)
        /\ (forall served : list (list byte),
              omap share_text replies ≡ₚ map Uint8Array_toString served ->
              sharesArray ≡ₚ map numbers_of served)
        /\ (length sharesArray + length (fetch_log run)
            + length (List.filter skipped replies))%nat
           = length DISTRIBUTED_SERVER_ENDPOINTS)
  /\ fetch_log run ≡ₚ map (fun e => LogText (message_of e)) (omap failure_of replies).
Proof.
  rewrite fetchShares_run. cbn.
  pose proof (arrange_Permutation schedule
                (map get (map share_url DISTRIBUTED_SERVER_ENDPOINTS))) as Hperm.
  set (replies := map get (map share_url DISTRIBUTED_SERVER_ENDPOINTS)) in *.
  assert (Hshares : omap fragment_of (arrange schedule replies)
                    ≡ₚ map shareArray_of (omap share_text replies))
    by (rewrite Hperm, fragments_of_texts; reflexivity).
  split; [reflexivity |]. split; [apply length_map |]. split.
  - eexists. split; [reflexivity |]. split; [exact Hshares |]. split.
    + intros served Hserved. rewrite Hshares, Hserved, map_map.
      erewrite map_ext_in; [reflexivity |].
      intros share Hin. apply shareArray_of_toString.
      assert (Htext : In (Uint8Array_toString share) (omap share_text replies)).
      { apply (Permutation_in _ (Permutation_sym Hserved)), in_map, Hin. }
      apply list_elem_of_In, list_elem_of_omap in Htext as (reply & _ & Htext).
      destruct reply as [e | [| | [| [| c text] |]]]; cbn in Htext; try discriminate Htext.
      injection Htext as Htext. symmetry in Htext.
      exact (toString_nonempty_text _ _ _ Htext).
    + rewrite length_map.
      rewrite (Permutation_length Hshares), <- fragments_of_texts.
      assert (Hfail : omap failure_of (arrange schedule replies) ≡ₚ omap failure_of replies)
        by (rewrite Hperm; reflexivity).
      rewrite (Permutation_length Hfail).
      rewrite replies_accounted. unfold replies. rewrite !length_map. reflexivity.
  - rewrite Hperm. reflexivity.
Qed.

(** ** The arithmetic of a transfer *)

(** The number of binary digits of a positive integer. *)
Lemma digits2_pos_size (p : positive) : digits2_pos p = Pos.size p.
Proof. induction p; cbn; congruence. Qed.

Lemma Zdigits2_log2 (p : positive) : Zdigits2 (Zpos p) = Z.log2 (Zpos p) + 1.
Proof.
  cbn [Zdigits2]. rewrite digits2_pos_size.
  destruct p; cbn [Pos.size Z.log2]; lia.
Qed.

Lemma Zdigits2_bounds (p : positive) :
  2 ^ (Zdigits2 (Zpos p) - 1) <= Zpos p < 2 ^ Zdigits2 (Zpos p).
Proof.
  rewrite Zdigits2_log2. replace (Z.log2 (Zpos p) + 1 - 1) with (Z.log2 (Zpos p)) by lia.
  replace (Z.log2 (Zpos p) + 1) with (Z.succ (Z.log2 (Zpos p))) by lia.
  apply Z.log2_spec. lia.
Qed.

Lemma Zdigits2_pos (p : positive) : 1 <= Zdigits2 (Zpos p).
Proof. rewrite Zdigits2_log2. pose proof (Z.log2_nonneg (Zpos p)). lia. Qed.

Lemma Zdigits2_log2_pos (m : Z) : 0 < m -> Zdigits2 m = Z.log2 m + 1.
Proof. destruct m as [| p | p]; try lia. intros _. apply Zdigits2_log2. Qed.

Lemma Zdigits2_shift (m k : Z) :
  0 < m -> 0 <= k -> Zdigits2 (m * 2 ^ k) = Zdigits2 m + k.
Proof.
  intros Hm Hk.
  assert (0 < 2 ^ k) by (apply Z.pow_pos_nonneg; lia).
  rewrite !Zdigits2_log2_pos, Z.log2_mul_pow2 by nia. lia.
Qed.

Lemma Zdigits2_unique (p : positive) (d : Z) :
  2 ^ (d - 1) <= Zpos p < 2 ^ d -> Zdigits2 (Zpos p) = d.
Proof.
  intros H. rewrite Zdigits2_log2.
  assert (0 <= d - 1).
  { destruct (Z.le_gt_cases 0 (d - 1)); [assumption |].
    assert (d <= 0) by lia. destruct H as [_ H]. 
    assert (2 ^ d <= 1).
    { destruct (Z.eq_dec d 0) as [-> | ?]; [cbn; lia |].
      rewrite Z.pow_neg_r by lia. lia. }
    lia. }
  rewrite (Z.log2_unique (Zpos p) (d - 1)); [lia | lia |].
  replace (Z.succ (d - 1)) with d by lia. exact H.
Qed.

(** Odd parts. *)
Lemma odd_part_spec (p : positive) :
  exists v, 0 <= v /\ Zpos p = Zpos (odd_part p) * 2 ^ v.
Proof.
  induction p as [p IH | p IH |].
  - exists 0. cbn [odd_part]. lia.
  - destruct IH as (v & Hv & IH). exists (v + 1). split; [lia |].
    cbn [odd_part]. rewrite Z.pow_add_r, Pos2Z.inj_xO, IH by lia. lia.
  - exists 0. cbn. lia.
Qed.

Lemma odd_part_is_odd (p : positive) : is_odd (odd_part p) = true.
Proof. induction p; cbn; auto. Qed.

Lemma odd_part_of_odd (p : positive) : is_odd p = true -> odd_part p = p.
Proof. destruct p; cbn; [reflexivity | discriminate | reflexivity]. Qed.

Lemma is_odd_mul (a b : positive) :
  is_odd a = true -> is_odd b = true -> is_odd (a * b)%positive = true.
Proof.
  destruct a, b; cbn; try discriminate; try reflexivity.
Qed.

Lemma odd_part_mul_odd (a b : positive) :
  is_odd a = true -> odd_part (a * b)%positive = (a * odd_part b)%positive.
Proof.
  intros Ha. induction b as [b IH | b IH |].
  - rewrite odd_part_of_odd by (apply is_odd_mul; [exact Ha | reflexivity]). reflexivity.
  - rewrite Pos.mul_xO_r. cbn [odd_part]. exact IH.
  - rewrite Pos.mul_1_r. cbn [odd_part]. rewrite Pos.mul_1_r. apply odd_part_of_odd, Ha.
Qed.

Lemma odd_part_mul (a b : positive) :
  odd_part (a * b)%positive = (odd_part a * odd_part b)%positive.
Proof.
  induction a as [a IH | a IH |].
  - apply odd_part_mul_odd. reflexivity.
  - cbn [Pos.mul odd_part]. exact IH.
  - rewrite Pos.mul_1_l. reflexivity.
Qed.

Lemma odd_part_le (p : positive) : Zpos (odd_part p) <= Zpos p.
Proof.
  destruct (odd_part_spec p) as (v & Hv & Hp).
  assert (1 <= 2 ^ v) by (apply Z.lt_pred_le, Z.pow_pos_nonneg; lia).
  pose proof (Pos2Z.is_pos (odd_part p)). nia.
Qed.

Lemma representable_small (n : positive) : Zpos n < 2 ^ 53 -> representable n.
Proof. unfold representable. pose proof (odd_part_le n). lia. Qed.

Lemma representable_factor_l (q t : positive) :
  representable (q * t) -> representable q.
Proof.
  unfold representable. rewrite odd_part_mul, Pos2Z.inj_mul.
  pose proof (Pos2Z.is_pos (odd_part t)). nia.
Qed.

Lemma representable_factor_r (q t : positive) :
  representable (q * t) -> representable t.
Proof. rewrite Pos.mul_comm. apply representable_factor_l. Qed.

(** The mantissa of [encode]. *)
Lemma encode_spec (n : positive) :
  representable n ->
  exists M,
    encode n = S754_finite false M (Zdigits2 (Zpos n) - 53)
    /\ Zpos M * 2 ^ Zdigits2 (Zpos n) = Zpos n * 2 ^ 53
    /\ Zdigits2 (Zpos M) = 53.
Proof.
  intros Hrep. unfold representable in Hrep.
  destruct (odd_part_spec n) as (v & Hv & Hn).
  set (o := odd_part n) in *.
  pose proof (Zdigits2_pos o) as Ho1.
  pose proof (Zdigits2_bounds o) as Hob.
  assert (Hosize : Zdigits2 (Zpos o) <= 53).
  { destruct (Z.le_gt_cases (Zdigits2 (Zpos o)) 53) as [? | Hgt]; [assumption |].
    assert (2 ^ 53 <= 2 ^ (Zdigits2 (Zpos o) - 1)) by (apply Z.pow_le_mono_r; lia).
    lia. }
  assert (Hsize : Zdigits2 (Zpos n) = Zdigits2 (Zpos o) + v)
    by (rewrite Hn; apply Zdigits2_shift; lia).
  set (k := 53 - Zdigits2 (Zpos o)).
  assert (Hquot : Zpos n * 2 ^ 53 / 2 ^ Zdigits2 (Zpos n) = Zpos o * 2 ^ k).
  { rewrite Hsize, Hn.
    replace (Zpos o * 2 ^ v * 2 ^ 53) with (Zpos o * 2 ^ k * 2 ^ (Zdigits2 (Zpos o) + v)).
    - apply Z.div_mul. apply Z.pow_nonzero; lia.
    - unfold k. rewrite <- !Z.mul_assoc, <- !Z.pow_add_r by lia. do 2 f_equal. lia. }
  assert (Hpos : 0 < Zpos o * 2 ^ k).
  { apply Z.mul_pos_pos; [lia | apply Z.pow_pos_nonneg; unfold k; lia]. }
  exists (Z.to_pos (Zpos o * 2 ^ k)).
  split; [unfold encode; rewrite Hquot; reflexivity |].
  rewrite Z2Pos.id by exact Hpos. split.
  - rewrite Hsize, Hn. unfold k.
    rewrite <- !Z.mul_assoc, <- !Z.pow_add_r by lia. do 2 f_equal. lia.
  - rewrite Zdigits2_shift; unfold k; lia.
Qed.

(** Shifting out zeros loses nothing. *)
Lemma shr_1_exact (c : Z) :
  0 <= c ->
  shr_1 (Build_shr_record (c * 2) false false) = Build_shr_record c false false.
Proof.
  intros Hc. destruct c as [| p | p]; [reflexivity | | lia].
  replace (Zpos p * 2) with (Zpos p~0) by lia. reflexivity.
Qed.

Lemma shr_exact (p : positive) (c : Z) :
  0 <= c ->
  SpecFloat.iter_pos shr_1 p (Build_shr_record (c * 2 ^ Zpos p) false false)
  = Build_shr_record c false false.
Proof.
  revert c. induction p as [p IH | p IH |]; intros c Hc; cbn [SpecFloat.iter_pos].
  - replace (c * 2 ^ Zpos p~1) with (c * 2 ^ Zpos p * 2 ^ Zpos p * 2).
    + assert (0 <= c * 2 ^ Zpos p) by (apply Z.mul_nonneg_nonneg; [lia | apply Z.pow_nonneg; lia]).
      rewrite shr_1_exact, IH, IH; auto.
      apply Z.mul_nonneg_nonneg; [lia | apply Z.pow_nonneg; lia].
    + assert (E : 2 ^ Zpos p~1 = 2 ^ Zpos p * 2 ^ Zpos p * 2).
      { replace (Zpos p~1) with (Zpos p + Zpos p + 1) by lia.
        rewrite !Z.pow_add_r by lia. reflexivity. }
      rewrite E. ring.
  - replace (c * 2 ^ Zpos p~0) with (c * 2 ^ Zpos p * 2 ^ Zpos p).
    + assert (0 <= c * 2 ^ Zpos p) by (apply Z.mul_nonneg_nonneg; [lia | apply Z.pow_nonneg; lia]).
      rewrite IH, IH; auto.
    + assert (E : 2 ^ Zpos p~0 = 2 ^ Zpos p * 2 ^ Zpos p).
      { replace (Zpos p~0) with (Zpos p + Zpos p) by lia.
        rewrite Z.pow_add_r by lia. reflexivity. }
      rewrite E. ring.
  - apply shr_1_exact. exact Hc.
Qed.

(** Rounding a number that needs none. *)
Lemma binary_round_aux_exact (s : bool) (c : positive) (n ex : Z) :
  Zdigits2 (Zpos c) = 53 -> 0 <= n -> -1074 <= ex + n <= 971 ->
  binary_round_aux 53 1024 s (Zpos c * 2 ^ n) ex loc_Exact = S754_finite s c (ex + n).
Proof.
  intros Hc Hn Hrange.
  assert (Hpow : 0 < 2 ^ n) by (apply Z.pow_pos_nonneg; lia).
  assert (Hdigits : Zdigits2 (Zpos c * 2 ^ n) = 53 + n)
    by (rewrite Zdigits2_shift, Hc; lia).
  unfold binary_round_aux, shr_fexp. rewrite Hdigits.
  replace (fexp 53 1024 (53 + n + ex) - ex) with n by (unfold fexp, emin; lia).
  assert (Hshr : shr (shr_record_of_loc (Zpos c * 2 ^ n) loc_Exact) ex n
                 = (Build_shr_record (Zpos c) false false, ex + n)).
  { cbn [shr_record_of_loc]. destruct n as [| p | p]; [| | lia].
    - cbn [shr]. rewrite Z.mul_1_r, Z.add_0_r. reflexivity.
    - cbn [shr]. rewrite shr_exact by lia. reflexivity. }
  rewrite Hshr. cbn [shr_m loc_of_shr_record round_nearest_even].
  rewrite Hc.
  replace (fexp 53 1024 (53 + (ex + n)) - (ex + n)) with 0 by (unfold fexp, emin; lia).
  cbn [shr_record_of_loc shr shr_m].
  destruct (Z.leb_spec (ex + n) (1024 - 53)); [reflexivity | lia].
Qed.

Lemma Pos_iter_xO (p : positive) (d : positive) :
  Zpos (Pos.iter xO p d) = Zpos p * 2 ^ Zpos d.
Proof.
  revert p. induction d as [| d IH] using Pos.peano_ind; intros p.
  - cbn. lia.
  - rewrite Pos.iter_succ, Pos2Z.inj_xO, IH, Pos2Z.inj_succ, Z.pow_succ_r by lia. lia.
Qed.

(** The conversion, the product and the quotient of representable
    integers are exact when the result is representable. *)
Lemma double_of_Z_encode (n : positive) :
  representable n -> Zdigits2 (Zpos n) <= 1024 ->
  double_of_Z (Zpos n) = encode n.
Proof.
  intros Hrep Hsize.
  destruct (encode_spec n Hrep) as (M & Henc & HM & HMd). rewrite Henc.
  pose proof (Zdigits2_pos n) as Hd1.
  set (d := Zdigits2 (Zpos n)) in *.
  unfold double_of_Z, binary_normalize, binary_round, shl_align.
  change (Zpos (digits2_pos n)) with (Zdigits2 (Zpos n)). fold d.
  replace (fexp 53 1024 (d + 0) - 0) with (d - 53) by (unfold fexp, emin; lia).
  replace (fexp 53 1024 (d + 0)) with (d - 53) by (unfold fexp, emin; lia).
  destruct (d - 53) as [| k | k] eqn:Hk.
  - assert (Zpos M = Zpos n).
    { replace d with 53 in HM by lia. 
      apply (Z.mul_cancel_r _ _ (2 ^ 53)); [apply Z.pow_nonzero; lia | exact HM]. }
    replace (Zpos n) with (Zpos M * 2 ^ 0) by lia.
    rewrite binary_round_aux_exact; [reflexivity | exact HMd | lia | lia].
  - assert (Zpos n = Zpos M * 2 ^ Zpos k).
    { apply (Z.mul_cancel_r _ _ (2 ^ 53)); [apply Z.pow_nonzero; lia |].
      rewrite <- HM. replace d with (Zpos k + 53) by lia.
      rewrite Z.pow_add_r by lia. lia. }
    replace (Zpos n) with (Zpos M * 2 ^ Zpos k) by lia.
    rewrite binary_round_aux_exact; [reflexivity | exact HMd | lia | lia].
  - rewrite Pos_iter_xO.
    assert (Zpos n * 2 ^ Zpos k = Zpos M).
    { apply (Z.mul_cancel_r _ _ (2 ^ d)); [apply Z.pow_nonzero; lia |].
      rewrite HM. replace 53 with (Zpos k + d) by lia.
      rewrite Z.pow_add_r by lia. lia. }
    replace (Zpos n * 2 ^ Zpos k) with (Zpos M * 2 ^ 0) by lia.
    rewrite binary_round_aux_exact; [f_equal; lia | exact HMd | lia | lia].
Qed.

Lemma Zdigits2_mul (a b : positive) :
  Zdigits2 (Zpos a) + Zdigits2 (Zpos b) - 1 <= Zdigits2 (Zpos (a * b))
  <= Zdigits2 (Zpos a) + Zdigits2 (Zpos b).
Proof.
  rewrite !Zdigits2_log2, Pos2Z.inj_mul.
  pose proof (Z.log2_mul_below (Zpos a) (Zpos b) ltac:(lia) ltac:(lia)).
  pose proof (Z.log2_mul_above (Zpos a) (Zpos b) ltac:(lia) ltac:(lia)).
  lia.
Qed.


Lemma double_mul_encode (a b : positive) :
  representable a -> representable b -> representable (a * b) ->
  Zdigits2 (Zpos (a * b)) <= 1024 ->
  double_mul (encode a) (encode b) = encode (a * b).
Proof.
  intros Ha Hb Hab Hsize.
  destruct (encode_spec a Ha) as (Ma & -> & HMa & HMad).
  destruct (encode_spec b Hb) as (Mb & -> & HMb & HMbd).
  destruct (encode_spec (a * b) Hab) as (Mab & -> & HMab & HMabd).
  pose proof (Zdigits2_mul a b) as Hd.
  pose proof (Zdigits2_pos a). pose proof (Zdigits2_pos b).
  set (da := Zdigits2 (Zpos a)) in *. set (db := Zdigits2 (Zpos b)) in *.
  set (dab := Zdigits2 (Zpos (a * b))) in *.
  set (c := dab - da - db + 53).
  assert (Hc : 2 ^ c * 2 ^ da * 2 ^ db = 2 ^ dab * 2 ^ 53).
  { unfold c. rewrite <- !Z.pow_add_r by lia. f_equal. lia. }
  assert (Hprod : Zpos (Ma * Mb) = Zpos Mab * 2 ^ c).
  { apply (Z.mul_cancel_r _ _ (2 ^ da * 2 ^ db * 2 ^ dab)).
    { apply Z.neq_sym, Z.lt_neq. repeat apply Z.mul_pos_pos; apply Z.pow_pos_nonneg; lia. }
    rewrite Pos2Z.inj_mul.
    transitivity ((Zpos Ma * 2 ^ da) * (Zpos Mb * 2 ^ db) * 2 ^ dab); [ring |].
    rewrite HMa, HMb.
    transitivity ((Zpos Mab * 2 ^ dab) * (2 ^ c * 2 ^ da * 2 ^ db)); [| ring].
    rewrite HMab, Hc, Pos2Z.inj_mul. ring. }
  unfold double_mul, SFmul. rewrite Hprod.
  rewrite binary_round_aux_exact; [| exact HMabd | unfold c; lia | unfold c; lia].
  cbn [xorb]. f_equal. unfold c. lia.
Qed.

Lemma div_eucl_exact (a b q : Z) :
  b <> 0 -> a = q * b -> Z.div_eucl a b = (q, 0).
Proof.
  intros Hb ->.
  assert (Hq : q * b / b = q) by (apply Z.div_mul; exact Hb).
  assert (Hr : (q * b) mod b = 0) by (apply Z.mod_mul; exact Hb).
  unfold Z.div, Z.modulo in Hq, Hr.
  destruct (Z.div_eucl (q * b) b) as [q' r']. congruence.
Qed.

Lemma new_location_zero (nb_steps : Z) : new_location nb_steps 0 = loc_Exact.
Proof. unfold new_location. destruct (Z.even nb_steps); reflexivity. Qed.

Lemma double_div_encode (p t q : positive) :
  (q * t)%positive = p -> representable p -> Zdigits2 (Zpos p) <= 1024 ->
  double_div (encode p) (encode t) = encode q.
Proof.
  intros Hp Hrep Hsize. subst p.
  pose proof (representable_factor_l _ _ Hrep) as Hq.
  pose proof (representable_factor_r _ _ Hrep) as Ht.
  destruct (encode_spec (q * t) Hrep) as (Mp & -> & HMp & HMpd).
  destruct (encode_spec t Ht) as (Mt & -> & HMt & HMtd).
  destruct (encode_spec q Hq) as (Mq & -> & HMq & HMqd).
  pose proof (Zdigits2_mul q t) as Hd.
  pose proof (Zdigits2_pos q). pose proof (Zdigits2_pos t).
  set (dq := Zdigits2 (Zpos q)) in *. set (dt := Zdigits2 (Zpos t)) in *.
  set (dp := Zdigits2 (Zpos (q * t))) in *.
  set (c := dq + dt - dp).
  assert (Hc : 2 ^ c * 2 ^ dp = 2 ^ dq * 2 ^ dt).
  { unfold c. rewrite <- !Z.pow_add_r by lia. f_equal. lia. }
  assert (Hquot : Zpos Mp * 2 ^ 53 = Zpos Mq * 2 ^ c * Zpos Mt).
  { apply (Z.mul_cancel_r _ _ (2 ^ dp * 2 ^ dq * 2 ^ dt)).
    { apply Z.neq_sym, Z.lt_neq. repeat apply Z.mul_pos_pos; apply Z.pow_pos_nonneg; lia. }
    transitivity ((Zpos Mp * 2 ^ dp) * 2 ^ 53 * (2 ^ dq * 2 ^ dt)); [ring |].
    rewrite HMp.
    transitivity ((Zpos Mq * 2 ^ dq) * (Zpos Mt * 2 ^ dt) * (2 ^ c * 2 ^ dp)); [| ring].
    rewrite HMq, HMt, Hc, Pos2Z.inj_mul. ring. }
  unfold double_div, SFdiv, SFdiv_core_binary. rewrite HMpd, HMtd.
  replace (Z.min (fexp 53 1024 (53 + (dp - 53) - (53 + (dt - 53)))) (dp - 53 - (dt - 53)))
    with (dp - dt - 53) by (unfold fexp, emin; lia).
  replace (dp - 53 - (dt - 53) - (dp - dt - 53)) with 53 by lia.
  rewrite Z.shiftl_mul_pow2 by lia.
  rewrite (div_eucl_exact _ _ (Zpos Mq * 2 ^ c)) by (lia || exact Hquot).
  rewrite new_location_zero.
  rewrite binary_round_aux_exact; [| exact HMqd | unfold c; lia | unfold c; lia].
  cbn [xorb]. f_equal. unfold c. lia.
Qed.

Lemma integer_of_encode (n : positive) :
  representable n -> integer_of (encode n) = Some (Zpos n).
Proof.
  intros Hrep. destruct (encode_spec n Hrep) as (M & -> & HM & _).
  pose proof (Zdigits2_pos n).
  set (d := Zdigits2 (Zpos n)) in *. unfold integer_of.
  destruct (d - 53) as [| k | k] eqn:Hk.
  - replace d with 53 in HM by lia.
    apply Z.mul_cancel_r in HM; [| apply Z.pow_nonzero; lia].
    cbn [cond_Zopp]. rewrite HM. f_equal. lia.
  - assert (Zpos n = Zpos M * 2 ^ Zpos k).
    { apply (Z.mul_cancel_r _ _ (2 ^ 53)); [apply Z.pow_nonzero; lia |].
      rewrite <- HM. replace d with (Zpos k + 53) by lia.
      rewrite Z.pow_add_r by lia. ring. }
    cbn [cond_Zopp]. congruence.
  - assert (HMn : Zpos M = Zpos n * 2 ^ Zpos k).
    { apply (Z.mul_cancel_r _ _ (2 ^ d)); [apply Z.pow_nonzero; lia |].
      rewrite HM. replace 53 with (Zpos k + d) at 1 by lia.
      rewrite Z.pow_add_r by lia. ring. }
    rewrite HMn, Z.mod_mul, Z.div_mul by (apply Z.pow_nonzero; lia).
    reflexivity.
Qed.

(** Rounding a positive number never gives zero or NaN. *)
Lemma shr_1_m (mrs : shr_record) :
  0 <= shr_m mrs -> shr_m (shr_1 mrs) = shr_m mrs / 2.
Proof.
  destruct mrs as [m r s]. cbn [shr_m]. intros Hm. rewrite <- Z.div2_div.
  destruct m as [| [p | p |] | p]; try reflexivity. lia.
Qed.

Lemma shr_iter_m (p : positive) (mrs : shr_record) :
  0 <= shr_m mrs ->
  shr_m (SpecFloat.iter_pos shr_1 p mrs) = shr_m mrs / 2 ^ Zpos p.
Proof.
  revert mrs. induction p as [p IH | p IH |]; intros mrs Hm; cbn [SpecFloat.iter_pos].
  - assert (0 <= shr_m (shr_1 mrs)) by (rewrite shr_1_m by lia; apply Z.div_pos; lia).
    assert (0 <= shr_m (SpecFloat.iter_pos shr_1 p (shr_1 mrs)))
      by (rewrite IH by lia; apply Z.div_pos; [lia | apply Z.pow_pos_nonneg; lia]).
    rewrite IH, IH, shr_1_m by lia.
    rewrite !Z.div_div by (try apply Z.pow_pos_nonneg; lia).
    f_equal. replace (Zpos p~1) with (1 + Zpos p + Zpos p) by lia.
    rewrite !Z.pow_add_r by lia. change (2 ^ 1) with 2. ring.
  - assert (0 <= shr_m (SpecFloat.iter_pos shr_1 p mrs))
      by (rewrite IH by lia; apply Z.div_pos; [lia | apply Z.pow_pos_nonneg; lia]).
    rewrite IH, IH by lia.
    rewrite !Z.div_div by (try apply Z.pow_pos_nonneg; lia).
    f_equal. replace (Zpos p~0) with (Zpos p + Zpos p) by lia.
    rewrite !Z.pow_add_r by lia. ring.
  - rewrite shr_1_m by lia. reflexivity.
Qed.

Lemma shr_fexp_positive (m e : Z) (l : location) :
  0 < m -> -1074 <= e ->
  0 < shr_m (fst (shr_fexp 53 1024 m e l)) /\ -1074 <= snd (shr_fexp 53 1024 m e l).
Proof.
  intros Hm He. unfold shr_fexp.
  assert (Hrec : shr_m (shr_record_of_loc m l) = m) by (destruct l as [| []]; reflexivity).
  destruct m as [| p | p]; try lia.
  pose proof (Zdigits2_bounds p) as Hb. pose proof (Zdigits2_pos p) as Hd.
  set (d := Zdigits2 (Zpos p)) in *.
  destruct (fexp 53 1024 (d + e) - e) as [| n | n] eqn:Hn; cbn [shr fst snd].
  - rewrite Hrec. lia.
  - rewrite shr_iter_m, Hrec by (rewrite Hrec; lia). split; [| lia].
    assert (Zpos n <= d - 1) by (unfold fexp, emin in Hn; lia).
    apply Z.div_str_pos. split; [apply Z.pow_pos_nonneg; lia |].
    transitivity (2 ^ (d - 1)); [apply Z.pow_le_mono_r; lia | lia].
  - rewrite Hrec. lia.
Qed.

Lemma binary_round_aux_positive (s : bool) (m e : Z) (l : location) :
  0 < m -> -1074 <= e ->
  (exists M E, binary_round_aux 53 1024 s m e l = S754_finite s M E)
  \/ binary_round_aux 53 1024 s m e l = S754_infinity s.
Proof.
  intros Hm He. unfold binary_round_aux.
  destruct (shr_fexp_positive m e l Hm He) as [Hm1 He1].
  destruct (shr_fexp 53 1024 m e l) as [mrs1 e1]. cbn [fst snd] in Hm1, He1.
  assert (Hm2 : 0 < round_nearest_even (shr_m mrs1) (loc_of_shr_record mrs1)).
  { unfold round_nearest_even.
    destruct (loc_of_shr_record mrs1) as [| []]; try lia.
    destruct (Z.even (shr_m mrs1)); lia. }
  destruct (shr_fexp_positive _ e1 loc_Exact Hm2 He1) as [Hm3 _].
  destruct (shr_fexp 53 1024 _ e1 loc_Exact) as [mrs2 e2]. cbn [fst] in Hm3.
  destruct (shr_m mrs2) as [| M | M]; try lia.
  destruct (Z.leb e2 (1024 - 53)); [left; eauto | right; reflexivity].
Qed.

Lemma double_of_Z_positive (t : positive) :
  (exists M E, double_of_Z (Zpos t) = S754_finite false M E)
  \/ double_of_Z (Zpos t) = S754_infinity false.
Proof.
  unfold double_of_Z, binary_normalize, binary_round, shl_align.
  destruct (fexp 53 1024 (Zpos (digits2_pos t) + 0) - 0) eqn:Hshift;
    apply binary_round_aux_positive; unfold fexp, emin in *; lia.
Qed.

(** Nothing locked gives a transfer of 0, whatever the constant. *)
Lemma lamports_of_nothing (TOTAL_DECIMALS : positive) :
  double_div (double_mul (double_of_Z 1000000000) (double_of_Z 0))
    (double_of_Z (Zpos TOTAL_DECIMALS))
  = double_of_Z 0.
Proof.
  change (double_mul (double_of_Z 1000000000) (double_of_Z 0)) with (S754_zero false).
  change (double_of_Z 0) with (S754_zero false).
  destruct (double_of_Z_positive TOTAL_DECIMALS) as [(M & E & ->) | ->]; reflexivity.
Qed.

Lemma Zdigits2_below (p : positive) (k : Z) :
  0 <= k -> Zpos p < 2 ^ k -> Zdigits2 (Zpos p) <= k.
Proof.
  intros Hk Hp. pose proof (Zdigits2_bounds p) as [Hlow _].
  pose proof (Zdigits2_pos p).
  destruct (Z.le_gt_cases (Zdigits2 (Zpos p)) k) as [? | Hgt]; [assumption |].
  assert (2 ^ k <= 2 ^ (Zdigits2 (Zpos p) - 1)) by (apply Z.pow_le_mono_r; lia).
  lia.
Qed.

(** When the exact quotient is an integer and the locked amount is at
    most 4611686018, both roundings are exact. *)
Lemma lamports_exact (TOTAL_DECIMALS : positive) (locked : Z) :
  0 <= locked <= 4611686018 ->
  Z.divide (Zpos TOTAL_DECIMALS) (1000000000 * locked) ->
  integer_of
    (double_div (double_mul (double_of_Z 1000000000) (double_of_Z locked))
       (double_of_Z (Zpos TOTAL_DECIMALS)))
  = Some (1000000000 * locked / Zpos TOTAL_DECIMALS).
Proof.
  intros Hrange Hdiv. destruct locked as [| l | l]; [| | lia].
  - rewrite lamports_of_nothing. reflexivity.
  - destruct Hdiv as [q Hq].
    assert (Hqpos : 0 < q) by nia.
    destruct q as [| q | q]; try lia.
    assert (Hp : (q * TOTAL_DECIMALS)%positive = (1000000000 * l)%positive) by lia.
    assert (Hrep : representable (1000000000 * l)).
    { unfold representable. rewrite odd_part_mul, Pos2Z.inj_mul.
      change (Zpos (odd_part 1000000000)) with 1953125.
      pose proof (odd_part_le l). lia. }
    assert (Hsize : Zdigits2 (Zpos (1000000000 * l)) <= 1024).
    { transitivity 63; [| lia]. apply Zdigits2_below; lia. }
    assert (Hl : representable l) by (apply representable_small; lia).
    pose proof Hrep as Hrep'. rewrite <- Hp in Hrep'.
    assert (Ht : representable TOTAL_DECIMALS) by (exact (representable_factor_r _ _ Hrep')).
    assert (Hq' : representable q) by (exact (representable_factor_l _ _ Hrep')).
    change (double_of_Z 1000000000) with (encode 1000000000).
    rewrite (double_of_Z_encode l), (double_of_Z_encode TOTAL_DECIMALS); [| assumption | | assumption |].
    + rewrite double_mul_encode; [| apply representable_small; lia | assumption | assumption | assumption].
      rewrite (double_div_encode _ _ q Hp Hrep Hsize).
      rewrite integer_of_encode by assumption.
      f_equal. rewrite Hq. symmetry. apply Z.div_mul. lia.
    + transitivity 63; [| lia]. apply Zdigits2_below; nia.
    + transitivity 63; [| lia]. apply Zdigits2_below; lia.
Qed.

(** ** Settling a job *)

Section SettlementProperties.

Variable TOTAL_DECIMALS : positive.
Variable THRESHOLD : nat.
Variable PARENT_WALLET_PUBLIC_KEY : option string.
Variable DISTRIBUTED_SERVER_ENDPOINTS : list string.
Variable sss_combine : list (list JsNumber) -> option (list byte).
Variable bs58_decode : string -> option (list byte).
Variable Keypair : Type.
Variable Keypair_fromSecretKey : list byte -> option Keypair.
Variable PublicKey_error : string -> option Thrown.
Variable transfer_error : double -> option Thrown.

Local Abbreviation recover :=
  (recoverPrivateKey THRESHOLD sss_combine bs58_decode Keypair Keypair_fromSecretKey).
Local Abbreviation attempt :=
  (try_payout TOTAL_DECIMALS THRESHOLD PARENT_WALLET_PUBLIC_KEY
     DISTRIBUTED_SERVER_ENDPOINTS sss_combine bs58_decode Keypair
     Keypair_fromSecretKey PublicKey_error transfer_error).
Local Abbreviation run :=
  (process_Queue TOTAL_DECIMALS THRESHOLD PARENT_WALLET_PUBLIC_KEY
     DISTRIBUTED_SERVER_ENDPOINTS sss_combine bs58_decode Keypair
     Keypair_fromSecretKey PublicKey_error transfer_error).
Local Abbreviation job_pays :=
  (pays TOTAL_DECIMALS THRESHOLD PARENT_WALLET_PUBLIC_KEY
     DISTRIBUTED_SERVER_ENDPOINTS sss_combine bs58_decode Keypair
     Keypair_fromSecretKey PublicKey_error transfer_error).

(** The shares a job collects from the network. *)
Local Abbreviation collected net :=
  (omap fragment_of
     (arrange (arrival net) (map (get net) (map share_url DISTRIBUTED_SERVER_ENDPOINTS)))).

(** The lamports of the transfer for a worker. *)
Local Abbreviation lamports_for worker :=
  (double_div (double_mul (double_of_Z 1000000000) (double_of_Z (locked_amount worker)))
     (double_of_Z (Zpos TOTAL_DECIMALS))).

Lemma recover_below_threshold (sharesArray : list (list JsNumber)) :
  (length sharesArray < THRESHOLD)%nat ->
  recover sharesArray = inl InsufficientShares.
Proof.
  intros Hfew. unfold recoverPrivateKey.
  destruct (Nat.ltb_spec (length sharesArray) THRESHOLD); [reflexivity | lia].
Qed.

Lemma recover_at_threshold (sharesArray : list (list JsNumber)) :
  (THRESHOLD <= length sharesArray)%nat ->
  recover sharesArray =
    match (recovered ← sss_combine sharesArray;
           secretKey ← bs58_decode (Buffer_toString recovered);
           Keypair_fromSecretKey secretKey) with
    | Some keypair => inr keypair
    | None => inl CorruptShare
    end.
Proof.
  intros Henough. unfold recoverPrivateKey.
  destruct (Nat.ltb_spec (length sharesArray) THRESHOLD); [lia | reflexivity].
Qed.

Ltac step_in H :=
  match type of H with
  | context [match ?x with _ => _ end] =>
      lazymatch x with
      | context [match _ with _ => _ end] => fail
      | _ => destruct x eqn:?; cbn in H
      end
  end.

Ltac run_try_in H :=
  unfold try_payout, and_then, check, throw, pure, from_result, effect,
    await_fetchShares, await_sendTransaction in H;
  rewrite ?fetchShares_run in H; cbn in H.

Lemma try_payout_keeps_store (net : Network Keypair) (id : Z) (worker : option Worker)
  (w w' : World) (r : Thrown + Worker * string) :
  attempt net id worker w = (r, w') -> db w' = db w /\ queue w' = queue w.
Proof.
  intros H. run_try_in H.
  repeat step_in H; inversion H; subst; cbn; auto.
Qed.

Lemma try_payout_missing_worker (net : Network Keypair) (id : Z) (w : World) :
  attempt net id None w = (inl (Err "Worker Not Found"), w).
Proof. reflexivity. Qed.

(** The [try] block throws before any transfer is submitted, or it
    recovers a keypair from the collected shares and submits exactly
    one transfer, whose outcome decides its own. *)
Lemma try_payout_submissions (net : Network Keypair) (id : Z) (worker : option Worker)
  (w w' : World) (r : Thrown + Worker * string) :
  attempt net id worker w = (r, w') ->
  (exists e, r = inl e /\ submitted w' = submitted w)
  \/ (exists found parent keypair,
        worker = Some found
        /\ PARENT_WALLET_PUBLIC_KEY = Some parent
        /\ recover (collected net) = inr keypair
        /\ submitted w' =
             submitted w ++ [mkTransfer parent (address found) (lamports_for found)]
        /\ r = match sendTransaction net
                       (mkTransfer parent (address found) (lamports_for found)) keypair with
               | inl e => inl e
               | inr signature => inr (found, signature)
               end).
Proof.
  intros H. run_try_in H.
  repeat step_in H; inversion H; subst; cbn;
    try (left; eexists; split; reflexivity).
  all: right; do 3 eexists; repeat split; try eassumption; try reflexivity.
  all: match goal with Hs : sendTransaction _ _ _ = _ |- _ => rewrite Hs end; reflexivity.
Qed.

(** A job whose [try] block throws: the error is logged and nothing is
    written. *)
Lemma process_Queue_aborted (net : Network Keypair) (job : Job) (w w1 : World) (e : Thrown) :
  attempt net (workerId job) (findUnique (workerId job) (db w)) (log Initializing w)
  = (inl e, w1) ->
  run net job w = (Fulfilled tt, log (LogText (message_of e)) w1)
  /\ db w1 = db w /\ queue w1 = queue w.
Proof.
  intros Htry. split.
  - unfold process_Queue. cbn [db log]. rewrite Htry. reflexivity.
  - apply try_payout_keeps_store in Htry. exact Htry.
Qed.

(** A job whose [try] block returns: the worker's row loses what was
    locked when the job read it, and one Success row is appended. *)
Lemma process_Queue_settled (net : Network Keypair) (job : Job) (w w1 : World)
  (found : Worker) (signature : string) :
  attempt net (workerId job) (findUnique (workerId job) (db w)) (log Initializing w)
  = (inr (found, signature), w1) ->
  findUnique (workerId job) (db w) = Some found
  /\ run net job w =
       (Fulfilled tt,
        log (LogText ("Worker's locked amount and payout is cleared, Transaction Successful."
                      ++ newline ++ newline))
          (with_db
             (mkDb (<[workerId job :=
                        mkWorker (address found) (pending_amount found) 0]> (workers (db w)))
                   (payouts (db w)
                    ++ [mkPayout (workerId job) (locked_amount found) Success signature]))
             w1)).
Proof.
  intros Htry.
  destruct (try_payout_keeps_store _ _ _ _ _ _ Htry) as [Hdb _].
  cbn [db log] in Hdb.
  assert (Hfound : findUnique (workerId job) (db w) = Some found).
  { destruct (try_payout_submissions _ _ _ _ _ _ Htry)
      as [(e & Hr & _) | (found' & parent & keypair & Hw & _ & _ & _ & Hr)].
    - discriminate Hr.
    - rewrite Hw. f_equal.
      destruct (sendTransaction net _ keypair); [discriminate Hr | congruence]. }
  split; [exact Hfound |].
  unfold process_Queue. cbn [db log]. rewrite Htry.
  unfold worker_update. rewrite Hdb. unfold findUnique in Hfound. rewrite Hfound.
  unfold decrement_locked, payouts_create. cbn [workers payouts address pending_amount].
  rewrite Z.sub_diag. reflexivity.
Qed.

(** The processor's promise is always fulfilled. *)
Lemma process_Queue_fulfilled (net : Network Keypair) (job : Job) (w : World) :
  fst (run net job w) = Fulfilled tt.
Proof.
  destruct (attempt net (workerId job) (findUnique (workerId job) (db w))
              (log Initializing w)) as [[e | [found signature]] w1] eqn:Htry.
  - destruct (process_Queue_aborted _ _ _ _ _ Htry) as [Hrun _]. rewrite Hrun. reflexivity.
  - destruct (process_Queue_settled _ _ _ _ _ _ Htry) as [_ Hrun]. rewrite Hrun. reflexivity.
Qed.

(** A [try] block that returns has built its transfer: the parent key
    is set, both keys and the amount were accepted. *)
Lemma try_payout_built (net : Network Keypair) (id : Z) (worker : option Worker)
  (w w' : World) (found : Worker) (signature : string) :
  attempt net id worker w = (inr (found, signature), w') ->
  exists parent,
    PARENT_WALLET_PUBLIC_KEY = Some parent
    /\ parent <> EmptyString
    /\ PublicKey_error parent = None
    /\ PublicKey_error (address found) = None
    /\ transfer_error (lamports_for found) = None.
Proof.
  intros H. run_try_in H.
  repeat step_in H; inversion H; subst; cbn.
  all: eexists; repeat split; try eassumption; try reflexivity; discriminate.
Qed.

Lemma try_payout_stage_failure (net : Network Keypair) (job : Job) (w : World) :
  findUnique (workerId job) (db w) = None
  \/ (exists sharesArray e,
        fetched (fetchShares DISTRIBUTED_SERVER_ENDPOINTS (get net) (arrival net))
          = Fulfilled sharesArray
        /\ recover sharesArray = inl e)
  \/ (exists found parent sharesArray keypair e,
        findUnique (workerId job) (db w) = Some found
        /\ PARENT_WALLET_PUBLIC_KEY = Some parent
        /\ fetched (fetchShares DISTRIBUTED_SERVER_ENDPOINTS (get net) (arrival net))
           = Fulfilled sharesArray
        /\ recover sharesArray = inr keypair
        /\ sendTransaction net
             (mkTransfer parent (address found) (lamports_for found)) keypair
           = inl e)
  \/ (exists found,
        findUnique (workerId job) (db w) = Some found
        /\ (PARENT_WALLET_PUBLIC_KEY = None
            \/ PARENT_WALLET_PUBLIC_KEY = Some EmptyString
            \/ exists parent e,
                 PARENT_WALLET_PUBLIC_KEY = Some parent
                 /\ (PublicKey_error parent = Some e
                     \/ PublicKey_error (address found) = Some e
                     \/ transfer_error (lamports_for found) = Some e))) ->
  exists e w1,
    attempt net (workerId job) (findUnique (workerId job) (db w)) (log Initializing w)
    = (inl e, w1).
Proof.
  intros Hstage.
  destruct (attempt net (workerId job) (findUnique (workerId job) (db w))
              (log Initializing w)) as [[e | [found signature]] w1] eqn:Htry;
    [eauto |].
  exfalso.
  destruct (try_payout_submissions _ _ _ _ _ _ Htry)
    as [(e & Hr & _) | (found' & parent & keypair & Hw & Hp & Hrec & _ & Hr)];
    [discriminate Hr |].
  destruct (try_payout_built _ _ _ _ _ _ _ Htry)
    as (parent0 & Hp0 & Hset & Hkey1 & Hkey2 & Hamount).
  assert (found = found').
  { destruct (sendTransaction net _ keypair); [discriminate Hr | congruence]. }
  subst found'.
  destruct Hstage as [Hnone | [(sharesArray & e & Hfetched & Hfail)
                                | [(worker & parent' & sharesArray & keypair' & e
                                    & Hworker & Hparent & Hfetched & Hkey & Hrefused)
                                  | (worker & Hworker & Hbuild)]]].
  - congruence.
  - rewrite fetchShares_run in Hfetched. cbn in Hfetched. congruence.
  - rewrite fetchShares_run in Hfetched. cbn in Hfetched.
    assert (worker = found) by congruence.
    assert (parent' = parent) by congruence.
    assert (keypair' = keypair) by congruence. subst.
    rewrite Hrefused in Hr. discriminate Hr.
  - assert (worker = found) by congruence. subst worker.
    destruct Hbuild as [Hunset | [Hempty | (parent' & e & Hparent & Hbuild)]];
      [congruence | congruence |].
    assert (parent' = parent0) by congruence. subst parent'.
    destruct Hbuild as [Hb | [Hb | Hb]]; congruence.
Qed.


(** C6. [recoverPrivateKey] throws InsufficientShares on fewer than
    [THRESHOLD] shares; on at least that many it throws CorruptShare when
    combining, base-58 decoding or building the keypair fails, and
    returns the keypair otherwise. A job whose reconstruction throws
    ends with no transfer submitted and with the store unchanged. *)
Theorem recover_failure_aborts_before_submission :
  (forall sharesArray,
      (length sharesArray < THRESHOLD)%nat ->
      recover sharesArray = inl InsufficientShares)
  /\ (forall sharesArray,
        (THRESHOLD <= length sharesArray)%nat ->
        (recovered ← sss_combine sharesArray;
         secretKey ← bs58_decode (Buffer_toString recovered);
         Keypair_fromSecretKey secretKey) = None ->
        recover sharesArray = inl CorruptShare)
  /\ (forall sharesArray keypair,
        (THRESHOLD <= length sharesArray)%nat ->
        (recovered ← sss_combine sharesArray;
         secretKey ← bs58_decode (Buffer_toString recovered);
         Keypair_fromSecretKey secretKey) = Some keypair ->
        recover sharesArray = inr keypair)
  /\ (forall net job w sharesArray e,
        fetched (fetchShares DISTRIBUTED_SERVER_ENDPOINTS (get net) (arrival net))
          = Fulfilled sharesArray ->
        recover sharesArray = inl e ->
        fst (run net job w) = Fulfilled tt
        /\ submitted (snd (run net job w)) = submitted w
        /\ db (snd (run net job w)) = db w).
Proof.
  split; [exact recover_below_threshold |].
  split; [| split].
  - intros sharesArray Henough Hnone.
    rewrite (recover_at_threshold _ Henough), Hnone. reflexivity.
  - intros sharesArray keypair Henough Hsome.
    rewrite (recover_at_threshold _ Henough), Hsome. reflexivity.
  - intros net job w sharesArray e Hfetched Hfail.
    destruct (try_payout_stage_failure net job w) as (e' & w1 & Htry).
    { right; left. eauto. }
    destruct (process_Queue_aborted _ _ _ _ _ Htry) as (Hrun & Hdb & _).
    rewrite Hrun. cbn [fst snd db log submitted].
    split; [reflexivity |]. split; [| exact Hdb].
    destruct (try_payout_submissions _ _ _ _ _ _ Htry)
      as [(e0 & _ & Hsub) | (found & parent & keypair & _ & _ & Hrec & _)].
    + exact Hsub.
    + rewrite fetchShares_run in Hfetched. cbn in Hfetched. congruence.
Qed.


(** C3, as the code has it. Nothing ties a job to a signature, so a
    job that is delivered again is run again. When both runs get their
    transfer accepted, the first empties [locked_amount] and appends a
    Success row for the amount; the replay finds 0 locked, submits a
    transfer of 0 lamports, leaves every worker row as it was (nothing
    is taken a second time) and appends one more Success row, of
    amount 0, with the replay's signature. *)
Theorem replayed_job_appends_zero_payout
  (net1 net2 : Network Keypair) (job : Job) (w : World) (found : Worker)
  (signature1 signature2 : string) :
  let w1 := snd (run net1 job w) in
  let w2 := snd (run net2 job w1) in
  findUnique (workerId job) (db w) = Some found ->
  job_pays net1 job w signature1 ->
  job_pays net2 job w1 signature2 ->
  findUnique (workerId job) (db w1)
  = Some (mkWorker (address found) (pending_amount found) 0)
  /\ payouts (db w1)
     = payouts (db w) ++ [mkPayout (workerId job) (locked_amount found) Success signature1]
  /\ workers (db w2) = workers (db w1)
  /\ payouts (db w2) = payouts (db w1) ++ [mkPayout (workerId job) 0 Success signature2]
  /\ exists transaction,
       submitted w2 = submitted w1 ++ [transaction]
       /\ lamports transaction = double_of_Z 0.
Proof.
  intros w1 w2 Hfound (worker1 & w1' & Htry1) Hpays2.
  destruct (process_Queue_settled _ _ _ _ _ _ Htry1) as (Hfound1 & Hrun1).
  assert (worker1 = found) by congruence. subst worker1.
  assert (Hw1 : w1 = snd (run net1 job w)) by reflexivity.
  rewrite Hrun1 in Hw1. cbn [snd] in Hw1.
  assert (Hrow1 : findUnique (workerId job) (db w1)
                  = Some (mkWorker (address found) (pending_amount found) 0)).
  { rewrite Hw1. unfold findUnique. cbn [db log with_db workers]. apply lookup_insert_eq. }
  assert (Hpay1 : payouts (db w1)
                  = payouts (db w)
                    ++ [mkPayout (workerId job) (locked_amount found) Success signature1]).
  { rewrite Hw1. reflexivity. }
  destruct Hpays2 as (worker2 & w2' & Htry2).
  destruct (process_Queue_settled _ _ _ _ _ _ Htry2) as (Hfound2 & Hrun2).
  assert (worker2 = mkWorker (address found) (pending_amount found) 0) by congruence.
  subst worker2. cbn [address pending_amount locked_amount] in Hrun2.
  assert (Hw2 : w2 = snd (run net2 job w1)) by reflexivity.
  rewrite Hrun2 in Hw2. cbn [snd] in Hw2.
  split; [exact Hrow1 |]. split; [exact Hpay1 |].
  split; [| split].
  - rewrite Hw2. cbn [db log with_db workers]. apply insert_id. exact Hrow1.
  - rewrite Hw2. reflexivity.
  - destruct (try_payout_submissions _ _ _ _ _ _ Htry2)
      as [(e & Hr & _) | (found' & parent & keypair & Hw & _ & _ & Hgrew & _)];
      [discriminate Hr |].
    assert (found' = mkWorker (address found) (pending_amount found) 0) by congruence.
    subst found'.
    eexists. split.
    + rewrite Hw2. cbn [submitted log with_db]. exact Hgrew.
    + cbn [lamports locked_amount]. apply lamports_of_nothing.
Qed.

End SettlementProperties.

(** ** The scenarios of the specification, run *)


(** The wallet of that network covers a smaller transfer: with 5 units
    locked the job is paid. *)
Example funded_wallet_pays_less :
  payouts (db (snd (Demo.run_job (Demo.funded Demo.all_up 1000000 "SIG1") (mkJob 1)
                      (Demo.world_of 0 5))))
  = [mkPayout 1 5 Success "SIG1"].
Proof. vm_compute. reflexivity. Qed.


(** Scenario E, then the same job once more: both runs are paid. *)
Lemma replayed_job_appends_zero_payout_witness :
  let w1 := snd (Demo.run_job (Demo.accepting Demo.all_up "SIG1") (mkJob 1)
                   (Demo.world_of 0 5000)) in
  let w2 := snd (Demo.run_job (Demo.accepting Demo.all_up "SIG2") (mkJob 1) w1) in
  workers (db w2) = workers (db w1)
  /\ payouts (db w2) = payouts (db w1) ++ [mkPayout 1 0 Success "SIG2"].
Proof.
  destruct (replayed_job_appends_zero_payout
              Demo.TOTAL_DECIMALS Demo.THRESHOLD Demo.PARENT_WALLET_PUBLIC_KEY
              Demo.DISTRIBUTED_SERVER_ENDPOINTS Demo.sss_combine Demo.bs58_decode
              Demo.Keypair Demo.Keypair_fromSecretKey Demo.PublicKey_error
              Demo.transfer_error
              (Demo.accepting Demo.all_up "SIG1") (Demo.accepting Demo.all_up "SIG2")
              (mkJob 1) (Demo.world_of 0 5000)
              (mkWorker Demo.worker_address 0 5000) "SIG1" "SIG2")
    as (_ & _ & Hworkers & Hpayouts & _).
  - reflexivity.
  - unfold pays. do 2 eexists. vm_compute. reflexivity.
  - unfold pays. do 2 eexists. vm_compute. reflexivity.
  - split; [exact Hworkers | exact Hpayouts].
Defined.

(** C3 as stated fails on the replay: the job of scenario E delivered
    twice, the network answering SIG1 both times, leaves two payout
    rows where one delivery leaves one; the ledger state after the
    replay is not the state before it. *)
Lemma replayed_job_changes_the_ledger :
  let w1 := snd (Demo.run_job (Demo.accepting Demo.all_up "SIG1") (mkJob 1)
                   (Demo.world_of 0 5000)) in
  let w2 := snd (Demo.run_job (Demo.accepting Demo.all_up "SIG1") (mkJob 1) w1) in
  payouts (db w1) = [mkPayout 1 5000 Success "SIG1"]
  /\ payouts (db w2) = [mkPayout 1 5000 Success "SIG1"; mkPayout 1 0 Success "SIG1"]
  /\ db w2 <> db w1.
Proof.
  cbv zeta. split; [vm_compute; reflexivity |]. split; [vm_compute; reflexivity |].
  intros Heq. apply (f_equal (fun d => length (payouts d))) in Heq.
  vm_compute in Heq. discriminate Heq.
Qed.

(** Scenario D again, for the reconstruction: one share is too few,
    and no transfer is submitted. *)
Lemma recover_failure_aborts_before_submission_witness :
  Demo.recover (Demo.as_fetched [Demo.share 1]) = inl InsufficientShares
  /\ submitted (snd (Demo.run_job (Demo.accepting Demo.one_up "SIG1") (mkJob 1)
                       (Demo.world_of 0 5000))) = [].
Proof.
  destruct (recover_failure_aborts_before_submission
              Demo.TOTAL_DECIMALS Demo.THRESHOLD Demo.PARENT_WALLET_PUBLIC_KEY
              Demo.DISTRIBUTED_SERVER_ENDPOINTS Demo.sss_combine Demo.bs58_decode
              Demo.Keypair Demo.Keypair_fromSecretKey Demo.PublicKey_error
              Demo.transfer_error)
    as (Hfew & _ & _ & Hjob).
  split.
  - apply Hfew. unfold Demo.THRESHOLD, Demo.as_fetched. cbn [length map]. lia.
  - destruct (Hjob (Demo.accepting Demo.one_up "SIG1") (mkJob 1) (Demo.world_of 0 5000)
                (Demo.as_fetched [Demo.share 1]) InsufficientShares
                ltac:(vm_compute; reflexivity) ltac:(vm_compute; reflexivity))
      as (_ & Hsubmitted & _).
    exact Hsubmitted.
Defined.

(** Scenario C: two of the five share servers are unreachable; three
    fragments arrive, the two failures are logged, and the stand-in
    scheme reconstructs the keypair. *)
Example three_of_five_servers :
  let fetch := fetchShares Demo.DISTRIBUTED_SERVER_ENDPOINTS (Demo.serve Demo.three_up)
                 Demo.out_of_order in
  fetched fetch = Fulfilled (Demo.as_fetched [Demo.share 3; Demo.share 1; Demo.share 2])
  /\ fetch_log fetch = [LogText "connect ECONNREFUSED"; LogText "connect ECONNREFUSED"]
  /\ Demo.recover (Demo.as_fetched [Demo.share 3; Demo.share 1; Demo.share 2])
     = inr Demo.keypair.
Proof. cbv zeta. repeat split; vm_compute; reflexivity. Qed.

(** Scenario E: 5000 units locked, at 100000 units to the SOL, are paid
    as 50,000,000 lamports. *)
Example lamports_of_5000_units :
  submitted (snd (Demo.run_job (Demo.accepting Demo.all_up "SIG1") (mkJob 1)
                    (Demo.world_of 0 5000)))
  = [mkTransfer "4wBqpZM9xaSheZzJSMawUKKwhdpChKbZ5eu5ky4Vigw" Demo.worker_address
       (double_of_Z 50000000)]
  /\ integer_of (double_of_Z 50000000) = Some 50000000.
Proof. split; vm_compute; reflexivity. Qed.


(** C7 as stated fails on the log. Two endpoints fail to deliver a
    share, one with a body that has none and one with an empty one:
    the fetch resolves to no fragment and nothing at all is logged. *)
Lemma silent_endpoints_are_not_logged :
  let get url :=
    if String.eqb url "http://share1/share" then Responded (Data ShareFalsy)
    else Responded (Data (ShareString EmptyString)) in
  let run := fetchShares ["http://share1"; "http://share2"] get [] in
  fetch_urls run = ["http://share1/share"; "http://share2/share"]
  /\ fetched run = Fulfilled []
  /\ fetch_log run = [].
Proof. cbv zeta. repeat split; vm_compute; reflexivity. Qed.

(** The network refuses the transfer: one transfer of 50,000,000
    lamports was submitted, the refusal is on the console and the 5000
    units stay locked, with no payout row. *)
Example refused_transfer :
  let w' := snd (Demo.run_job (Demo.refusing Demo.all_up) (mkJob 1) (Demo.world_of 0 5000)) in
  db w' = db (Demo.world_of 0 5000)
  /\ length (submitted w') = 1%nat
  /\ last (console w') = Some (LogText "failed to send transaction").
Proof. cbv zeta. repeat split; vm_compute; reflexivity. Qed.

(** * Further properties *)

(** ** What a lock and a job do to the store *)

Lemma post_payout_effect (TOTAL_DECIMALS : positive) (id : Z) (w : World) :
  console (snd (post_payout TOTAL_DECIMALS id w)) = console w ++ [LogNumber id]
  /\ submitted (snd (post_payout TOTAL_DECIMALS id w)) = submitted w
  /\ ((exists message,
          fst (post_payout TOTAL_DECIMALS id w) = Error500 message
          /\ db (snd (post_payout TOTAL_DECIMALS id w)) = db w
          /\ queue (snd (post_payout TOTAL_DECIMALS id w)) = queue w
          /\ forall worker, findUnique id (db w) = Some worker -> pending_amount worker < 3000)
      \/ (exists worker,
            findUnique id (db w) = Some worker
            /\ 3000 <= pending_amount worker
            /\ fst (post_payout TOTAL_DECIMALS id w)
               = Ok200 (js_div (locked_amount worker + pending_amount worker) TOTAL_DECIMALS)
            /\ db (snd (post_payout TOTAL_DECIMALS id w))
               = mkDb (<[id := mkWorker (address worker) 0
                                 (locked_amount worker + pending_amount worker)]>
                         (workers (db w)))
                      (payouts (db w))
            /\ queue (snd (post_payout TOTAL_DECIMALS id w)) = queue w ++ [mkJob id])).
Proof.
  unfold post_payout, transaction. cbn [db log].
  destruct (findUnique id (db w)) as [worker |] eqn:Hfound.
  - destruct (Z.lt_ge_cases (pending_amount worker) 3000) as [Hlow | Hmin].
    + rewrite (lock_below_minimum TOTAL_DECIMALS id (db w) worker Hfound Hlow).
      cbn. repeat split. left. eexists. repeat split.
      intros worker' Heq. congruence.
    + rewrite (lock_success TOTAL_DECIMALS id (db w) worker Hfound Hmin).
      cbn. repeat split. right. exists worker. repeat split; assumption.
  - rewrite (lock_not_found TOTAL_DECIMALS id (db w) Hfound).
    cbn. repeat split. left. eexists. repeat split. intros worker Heq. congruence.
Qed.

Lemma payouts_findMany_app (id : Z) (m : gmap Z Worker) (rows more : list Payout) :
  payouts_findMany id (mkDb m (rows ++ more))
  = payouts_findMany id (mkDb m rows) ++ List.filter (fun p => worker_id p =? id) more.
Proof. unfold payouts_findMany. cbn [payouts]. apply List.filter_app. Qed.

Lemma funds_insert (id id' : Z) (row : Worker) (m : gmap Z Worker) (rows : list Payout) :
  funds id' (mkDb (<[id := row]> m) rows)
  = if decide (id = id')
    then pending_amount row + locked_amount row + totalEarning (payouts_findMany id' (mkDb m rows))
    else funds id' (mkDb m rows).
Proof.
  unfold funds. cbn [workers]. rewrite lookup_insert.
  destruct (decide (id = id')); reflexivity.
Qed.

Lemma omap_length_le {A B : Type} (f : A -> option B) (l : list A) :
  (length (omap f l) <= length l)%nat.
Proof.
  induction l as [| x l IH]; [reflexivity |].
  change (omap f (x :: l)) with (match f x with Some y => y :: omap f l | None => omap f l end).
  destruct (f x); cbn [length]; lia.
Qed.

Section JobEffects.

Variable TOTAL_DECIMALS : positive.
Variable THRESHOLD : nat.
Variable PARENT_WALLET_PUBLIC_KEY : option string.
Variable DISTRIBUTED_SERVER_ENDPOINTS : list string.
Variable sss_combine : list (list JsNumber) -> option (list byte).
Variable bs58_decode : string -> option (list byte).
Variable Keypair : Type.
Variable Keypair_fromSecretKey : list byte -> option Keypair.
Variable PublicKey_error : string -> option Thrown.
Variable transfer_error : double -> option Thrown.

Local Abbreviation recover :=
  (recoverPrivateKey THRESHOLD sss_combine bs58_decode Keypair Keypair_fromSecretKey).
Local Abbreviation attempt :=
  (try_payout TOTAL_DECIMALS THRESHOLD PARENT_WALLET_PUBLIC_KEY
     DISTRIBUTED_SERVER_ENDPOINTS sss_combine bs58_decode Keypair
     Keypair_fromSecretKey PublicKey_error transfer_error).
Local Abbreviation run :=
  (process_Queue TOTAL_DECIMALS THRESHOLD PARENT_WALLET_PUBLIC_KEY
     DISTRIBUTED_SERVER_ENDPOINTS sss_combine bs58_decode Keypair
     Keypair_fromSecretKey PublicKey_error transfer_error).
Local Abbreviation job_pays :=
  (pays TOTAL_DECIMALS THRESHOLD PARENT_WALLET_PUBLIC_KEY
     DISTRIBUTED_SERVER_ENDPOINTS sss_combine bs58_decode Keypair
     Keypair_fromSecretKey PublicKey_error transfer_error).
Local Abbreviation answers net :=
  (omap fragment_of (map (get net) (map share_url DISTRIBUTED_SERVER_ENDPOINTS))).
Local Abbreviation lamports_for worker :=
  (double_div (double_mul (double_of_Z 1000000000) (double_of_Z (locked_amount worker)))
     (double_of_Z (Zpos TOTAL_DECIMALS))).

(** The store after the job paid [found] with [signature]. *)
Local Abbreviation paid_db w job found signature :=
  (mkDb (<[workerId job := mkWorker (address found) (pending_amount found) 0]>
           (workers (db w)))
        (payouts (db w) ++ [mkPayout (workerId job) (locked_amount found) Success signature])).

(** A job leaves the store and the submissions as they were, or it
    recovered a keypair, had one transfer accepted and wrote the
    payout. *)
Lemma process_Queue_effect (net : Network Keypair) (job : Job) (w : World) :
  queue (snd (run net job w)) = queue w
  /\ ((db (snd (run net job w)) = db w
       /\ forall signature, ~ job_pays net job w signature)
      \/ (exists found parent keypair signature,
            findUnique (workerId job) (db w) = Some found
            /\ job_pays net job w signature
            /\ (THRESHOLD <= length (answers net))%nat
            /\ sendTransaction net
                 (mkTransfer parent (address found) (lamports_for found)) keypair
               = inr signature
            /\ db (snd (run net job w)) = paid_db w job found signature
            /\ submitted (snd (run net job w))
               = submitted w ++ [mkTransfer parent (address found) (lamports_for found)])).
Proof.
  destruct (attempt net (workerId job) (findUnique (workerId job) (db w))
              (log Initializing w)) as [[e | [found signature]] w1] eqn:Htry.
  - destruct (process_Queue_aborted _ _ _ _ _ _ _ _ _ _ _ _ _ _ _ Htry)
      as (Hrun & Hdb & Hqueue).
    rewrite Hrun. cbn [snd log db queue]. split; [exact Hqueue |].
    left. split; [exact Hdb |].
    intros signature (worker & w' & Hpays). congruence.
  - destruct (process_Queue_settled _ _ _ _ _ _ _ _ _ _ _ _ _ _ _ _ Htry)
      as (Hfound & Hrun).
    destruct (try_payout_keeps_store _ _ _ _ _ _ _ _ _ _ _ _ _ _ _ _ Htry) as [_ Hqueue].
    rewrite Hrun. cbn [snd log db queue with_db submitted].
    split; [exact Hqueue |]. right.
    destruct (try_payout_submissions _ _ _ _ _ _ _ _ _ _ _ _ _ _ _ _ Htry)
      as [(e & Hr & _) | (found' & parent & keypair & Hw & _ & Hrec & Hgrew & Hr)];
      [discriminate Hr |].
    assert (found' = found) by congruence. subst found'.
    destruct (sendTransaction net
                (mkTransfer parent (address found) (lamports_for found)) keypair)
      as [e | signature'] eqn:Hsend; [discriminate Hr |].
    assert (signature' = signature) by congruence. subst signature'.
    exists found, parent, keypair, signature.
    split; [exact Hfound |].
    split; [exists found, w1; exact Htry |].
    split.
    { destruct (Nat.lt_ge_cases
                  (length (omap fragment_of
                             (arrange (arrival net)
                                (map (get net) (map share_url DISTRIBUTED_SERVER_ENDPOINTS)))))
                  THRESHOLD) as [Hfew | Henough].
      - rewrite (recover_below_threshold _ _ _ _ _ _ Hfew) in Hrec. discriminate Hrec.
      - erewrite <- Permutation_length; [exact Henough |].
        rewrite (arrange_Permutation (arrival net)). reflexivity. }
    split; [exact Hsend |]. split; [reflexivity | exact Hgrew].
Qed.

(** X1. A job changes one row at most: every other worker's row and
    payout history are as before, and so are the address and the
    pending amount of the job's own worker. *)
Theorem job_touches_one_row (net : Network Keypair) (job : Job) (w : World) :
  (forall other,
      other <> workerId job ->
      findUnique other (db (snd (run net job w))) = findUnique other (db w)
      /\ fst (get_payout other (snd (run net job w))) = fst (get_payout other w))
  /\ pending_amount <$> findUnique (workerId job) (db (snd (run net job w)))
     = pending_amount <$> findUnique (workerId job) (db w)
  /\ address <$> findUnique (workerId job) (db (snd (run net job w)))
     = address <$> findUnique (workerId job) (db w).
Proof.
  destruct (process_Queue_effect net job w)
    as (_ & [(Hdb & _) | (found & parent & keypair & signature
                          & Hfound & _ & _ & _ & Hdb & _)]).
  - unfold get_payout. cbn [fst]. rewrite Hdb. auto.
  - unfold get_payout. cbn [fst]. rewrite Hdb. split; [| split].
    + intros other Hother. split.
      * unfold findUnique. cbn [workers]. apply lookup_insert_ne. congruence.
      * rewrite payouts_findMany_app. cbn [List.filter worker_id].
        destruct (Z.eqb_spec (workerId job) other); [congruence |].
        rewrite app_nil_r. unfold payouts_findMany. reflexivity.
    + unfold findUnique in *. cbn [workers]. rewrite lookup_insert_eq, Hfound. reflexivity.
    + unfold findUnique in *. cbn [workers]. rewrite lookup_insert_eq, Hfound. reflexivity.
Qed.

(** X2. A job submits no transfer, or at least [THRESHOLD] of the
    configured endpoints answered with a share: with fewer answers, or
    fewer endpoints, nothing ever reaches the ledger. *)
Theorem no_transfer_below_threshold (net : Network Keypair) (job : Job) (w : World) :
  submitted (snd (run net job w)) = submitted w
  \/ ((THRESHOLD <= length (answers net))%nat
      /\ (length (answers net) <= length DISTRIBUTED_SERVER_ENDPOINTS)%nat).
Proof.
  destruct (attempt net (workerId job) (findUnique (workerId job) (db w))
              (log Initializing w)) as [r w1] eqn:Htry.
  assert (Hsub : submitted (snd (run net job w)) = submitted w1).
  { destruct r as [e | [found signature]].
    - destruct (process_Queue_aborted _ _ _ _ _ _ _ _ _ _ _ _ _ _ _ Htry) as (Hrun & _).
      rewrite Hrun. reflexivity.
    - destruct (process_Queue_settled _ _ _ _ _ _ _ _ _ _ _ _ _ _ _ _ Htry) as (_ & Hrun).
      rewrite Hrun. reflexivity. }
  rewrite Hsub.
  destruct (try_payout_submissions _ _ _ _ _ _ _ _ _ _ _ _ _ _ _ _ Htry)
    as [(e & _ & Hsame) | (found & parent & keypair & _ & _ & Hrec & _ & _)].
  - left. exact Hsame.
  - right.
    assert (Hlen : length (omap fragment_of
                             (arrange (arrival net)
                                (map (get net) (map share_url DISTRIBUTED_SERVER_ENDPOINTS))))
                   = length (answers net)).
    { apply Permutation_length. rewrite (arrange_Permutation (arrival net)). reflexivity. }
    split.
    + destruct (Nat.lt_ge_cases (length (answers net)) THRESHOLD) as [Hfew | Henough];
        [| exact Henough].
      rewrite <- Hlen in Hfew.
      rewrite (recover_below_threshold _ _ _ _ _ _ Hfew) in Hrec. discriminate Hrec.
    + etransitivity; [apply omap_length_le |]. rewrite !length_map. reflexivity.
Qed.

(** X3. From the lock to the payout. A worker with at least 3000 pending
    asks for a payout and the job that the lock enqueued is paid: the
    worker ends with nothing pending and nothing locked, the payout row
    is for all that was pending and locked before, and one transfer
    goes to the worker's address, for the double the code computes
    from that total: exactly 1,000,000,000 times the total over
    [TOTAL_DECIMALS] when the total is at most 4611686018 and that
    quotient is an integer. *)
Theorem lock_then_paid_job
  (id : Z) (w : World) (worker : Worker) (net : Network Keypair) (signature : string) :
  let w1 := snd (post_payout TOTAL_DECIMALS id w) in
  let w2 := snd (run net (mkJob id) w1) in
  let total := locked_amount worker + pending_amount worker in
  findUnique id (db w) = Some worker ->
  3000 <= pending_amount worker ->
  job_pays net (mkJob id) w1 signature ->
  queue w1 = queue w ++ [mkJob id]
  /\ findUnique id (db w2) = Some (mkWorker (address worker) 0 0)
  /\ payouts (db w2) = payouts (db w) ++ [mkPayout id total Success signature]
  /\ exists transaction,
       submitted w2 = submitted w ++ [transaction]
       /\ toPubkey transaction = address worker
       /\ lamports transaction
          = double_div (double_mul (double_of_Z 1000000000) (double_of_Z total))
              (double_of_Z (Zpos TOTAL_DECIMALS))
       /\ (0 <= total <= 4611686018 ->
           Z.divide (Zpos TOTAL_DECIMALS) (1000000000 * total) ->
           integer_of (lamports transaction)
           = Some (1000000000 * total / Zpos TOTAL_DECIMALS)).
Proof.
  intros w1 w2 total Hfound Hmin Hpays.
  destruct (post_payout_effect TOTAL_DECIMALS id w)
    as (_ & Hsub1 & [(message & _ & _ & _ & Hlow) | (worker' & Hfound' & _ & _ & Hdb1 & Hq1)]).
  { specialize (Hlow worker Hfound). lia. }
  assert (worker' = worker) by congruence. subst worker'.
  fold w1 in Hsub1, Hdb1, Hq1.
  assert (Hrow1 : findUnique id (db w1) = Some (mkWorker (address worker) 0 total)).
  { rewrite Hdb1. unfold findUnique. cbn [workers]. apply lookup_insert_eq. }
  destruct (process_Queue_effect net (mkJob id) w1)
    as (_ & [(_ & Hnever) | (found & parent & keypair & signature'
                             & Hfound1 & Hpays' & _ & _ & Hdb2 & Hsub2)]).
  { exfalso. exact (Hnever signature Hpays). }
  cbn [workerId] in *. fold w2 in Hdb2, Hsub2.
  assert (found = mkWorker (address worker) 0 total) by congruence. subst found.
  assert (signature' = signature).
  { destruct Hpays as (a & b & Ha). destruct Hpays' as (a' & b' & Ha'). congruence. }
  subst signature'. cbn [address pending_amount locked_amount] in Hdb2, Hsub2.
  split; [exact Hq1 |]. split; [| split].
  - rewrite Hdb2. unfold findUnique. cbn [workers]. apply lookup_insert_eq.
  - rewrite Hdb2, Hdb1. reflexivity.
  - eexists. split; [rewrite Hsub2, Hsub1; reflexivity |].
    cbn [toPubkey lamports]. do 2 (split; [reflexivity |]).
    intros Hrange Hdivides. apply lamports_exact; assumption.
Qed.

(** X4. After a paid job, [/me] shows the worker nothing locked, the same
    pending amount, and an earning raised by what was locked. *)
Theorem paid_job_shows_in_me
  (net : Network Keypair) (job : Job) (w : World) (found : Worker) (signature : string) :
  findUnique (workerId job) (db w) = Some found ->
  job_pays net job w signature ->
  fst (get_me TOTAL_DECIMALS (workerId job) w)
  = MeJson found
      (js_div (locked_amount found) TOTAL_DECIMALS)
      (js_div (pending_amount found) TOTAL_DECIMALS)
      (js_div (totalEarning (fst (get_payout (workerId job) w))) TOTAL_DECIMALS)
  /\ fst (get_me TOTAL_DECIMALS (workerId job) (snd (run net job w)))
     = MeJson (mkWorker (address found) (pending_amount found) 0)
         (js_div 0 TOTAL_DECIMALS)
         (js_div (pending_amount found) TOTAL_DECIMALS)
         (js_div (totalEarning (fst (get_payout (workerId job) w)) + locked_amount found)
            TOTAL_DECIMALS).
Proof.
  intros Hfound Hpays. split.
  - unfold get_me, findFirst, get_payout. unfold findUnique in Hfound.
    rewrite Hfound. reflexivity.
  - destruct (process_Queue_effect net job w)
      as (_ & [(_ & Hnever) | (found' & parent & keypair & signature'
                               & Hfound' & Hpays' & _ & _ & Hdb & _)]).
    { exfalso. exact (Hnever signature Hpays). }
    assert (found' = found) by congruence. subst found'.
    unfold get_me, findFirst, get_payout. rewrite Hdb. cbn [workers fst].
    rewrite lookup_insert_eq. cbn [locked_amount pending_amount].
    rewrite payouts_findMany_app. cbn [List.filter worker_id].
    rewrite Z.eqb_refl, totalEarning_app.
    unfold totalEarning at 2. cbn [fold_left amount]. reflexivity.
Qed.

End JobEffects.

(** ** Two locks in a row *)

(** X5. Whatever the first request for a payout did, a second one for the
    same worker right after it is answered 500 and moves nothing: the
    first either found too little pending, and so does the second, or
    it emptied the pending amount. *)
Theorem second_lock_is_refused (TOTAL_DECIMALS : positive) (id : Z) (w : World) :
  let w1 := snd (post_payout TOTAL_DECIMALS id w) in
  exists message,
    fst (post_payout TOTAL_DECIMALS id w1) = Error500 message
    /\ db (snd (post_payout TOTAL_DECIMALS id w1)) = db w1
    /\ queue (snd (post_payout TOTAL_DECIMALS id w1)) = queue w1.
Proof.
  intros w1.
  destruct (post_payout_effect TOTAL_DECIMALS id w1)
    as (_ & _ & [(message & Hanswer & Hdb & Hqueue & _)
                | (worker1 & Hfound1 & Hmin1 & _)]).
  { exists message. auto. }
  exfalso.
  destruct (post_payout_effect TOTAL_DECIMALS id w)
    as (_ & _ & [(message & _ & Hdb & _ & Hlow) | (worker & _ & _ & _ & Hdb & _)]);
    fold w1 in Hdb; rewrite Hdb in Hfound1.
  - specialize (Hlow worker1 Hfound1). lia.
  - unfold findUnique in Hfound1. cbn [workers] in Hfound1.
    rewrite lookup_insert_eq in Hfound1. injection Hfound1 as <-.
    cbn [pending_amount] in Hmin1. lia.
Qed.

(** ** Shares on the wire *)

Lemma decimal_byte_nonempty (b : byte) :
  exists c rest, decimal (Byte.to_N b) = String c rest.
Proof. destruct b; do 2 eexists; reflexivity. Qed.

Lemma toString_nonempty (b : byte) (share : list byte) :
  exists c rest, Uint8Array_toString (b :: share) = String c rest.
Proof.
  unfold Uint8Array_toString. cbn [map].
  destruct (decimal_byte_nonempty b) as (c & rest & Hb).
  destruct (map (fun b => decimal (Byte.to_N b)) share) as [| next pieces].
  - cbn [join]. eauto.
  - change (join comma (decimal (Byte.to_N b) :: next :: pieces))
      with (decimal (Byte.to_N b) ++ String comma (join comma (next :: pieces)))%string.
    rewrite Hb. do 2 eexists. reflexivity.
Qed.

(** X6. A share server that answers with the text [createShares] wrote
    for a share delivers the bytes of the share, one number each; the
    text of an empty share is the empty string, which is dropped. *)
Theorem served_share_is_read_back (share : list byte) (st : FetchState) :
  on_response (Data (ShareString (Uint8Array_toString share))) st
  = (Fulfilled tt,
     match share with
     | [] => st
     | _ :: _ => mkFetchState (sharesArray st ++ [numbers_of share]) (fetch_console st)
     end).
Proof.
  destruct share as [| b share]; [reflexivity |].
  destruct (toString_nonempty b share) as (c & rest & Htext).
  unfold on_response. rewrite Htext, <- Htext.
  rewrite shareArray_of_toString by discriminate. reflexivity.
Qed.

Lemma fragment_or_failure (replies : list Reply) :
  (length (omap fragment_of replies) + length (omap failure_of replies)
   <= length replies)%nat.
Proof.
  induction replies as [| reply rest IH]; [reflexivity |].
  change (omap ?f (reply :: rest))
    with (match f reply with Some y => y :: omap f rest | None => omap f rest end).
  destruct reply as [e | [| | [| [| c s] |]]]; cbn [fragment_of failure_of length]; lia.
Qed.

(** X7. [fetchShares] accounts for every endpoint at most once: the
    fragments it returns and the lines it logs are together no more than
    the endpoints, and with no endpoint that answers a share it returns
    the empty array. *)
Theorem fetchShares_counts_each_endpoint_once
  (DISTRIBUTED_SERVER_ENDPOINTS : list string) (get : string -> Reply)
  (schedule : list nat) :
  exists sharesArray,
    fetched (fetchShares DISTRIBUTED_SERVER_ENDPOINTS get schedule) = Fulfilled sharesArray
    /\ (length sharesArray
        + length (fetch_log (fetchShares DISTRIBUTED_SERVER_ENDPOINTS get schedule))
        <= length DISTRIBUTED_SERVER_ENDPOINTS)%nat
    /\ ((forall url, fragment_of (get url) = None) -> sharesArray = []).
Proof.
  rewrite fetchShares_run. cbn [fetched fetch_log]. eexists. split; [reflexivity |].
  pose proof (arrange_Permutation schedule
                (map get (map share_url DISTRIBUTED_SERVER_ENDPOINTS))) as Hperm.
  split.
  - rewrite length_map.
    etransitivity; [apply fragment_or_failure |].
    rewrite (Permutation_length Hperm), !length_map. reflexivity.
  - intros Hnone. apply Permutation_nil_r. rewrite Hperm. clear Hperm.
    induction DISTRIBUTED_SERVER_ENDPOINTS as [| endpoint rest IH]; [reflexivity |].
    cbn [map].
    change (omap fragment_of (get (share_url endpoint) :: ?l))
      with (match fragment_of (get (share_url endpoint)) with
            | Some y => y :: omap fragment_of l
            | None => omap fragment_of l
            end).
    rewrite Hnone. exact IH.
Qed.

(** ** The middleware *)

(** X8. The middleware hands a request on exactly when its authorization
    header is a non-empty token that verifies under the secret with a
    [userId] other than 0; the request handed on carries that id,
    whatever [userId] the incoming request had. Every other request is
    answered 403. *)
Theorem verifyJwt_admits_verified_ids
  (jwt_verify : string -> string -> Thrown + option Z) (secret : string)
  (req req' : Request) :
  (verifyJwt jwt_verify secret req = Next req'
   <-> exists token id,
         authorization req = Some token /\ token <> EmptyString
         /\ jwt_verify token secret = inr (Some id) /\ id <> 0
         /\ req' = mkRequest (authorization req) (Some id))
  /\ ((forall other, verifyJwt jwt_verify secret req <> Next other)
      -> exists message, verifyJwt jwt_verify secret req = Status403 message).
Proof.
  unfold verifyJwt. split; [split |].
  - destruct (authorization req) as [[| c token] |]; cbn; try discriminate.
    destruct (jwt_verify (String c token) secret) as [e | [id |]] eqn:Hverify;
      cbn; try discriminate.
    destruct (Z.eqb_spec id 0); [discriminate |].
    intros [= <-]. exists (String c token), id. repeat split; auto; discriminate.
  - intros (token & id & Hheader & Hnonempty & Hverify & Hid & ->).
    rewrite Hheader. destruct token as [| c token]; [congruence |]. cbn.
    rewrite Hverify. destruct (Z.eqb_spec id 0); [congruence | reflexivity].
  - intros Hnever.
    destruct (authorization req) as [[| c token] |]; cbn in *; eauto.
    destruct (jwt_verify (String c token) secret) as [e | [id |]]; eauto.
    destruct (id =? 0); eauto. exfalso. eapply Hnever. reflexivity.
Qed.

(** X9. Behind [workerMiddleware], the payout handler runs only for the id
    of a token that verifies under the worker secret, and exactly as it
    would for that id; a request that is turned away leaves the world as
    it was. *)
Theorem payout_route_runs_for_the_token_id
  (jwt_verify : string -> string -> Thrown + option Z) (WORKER_JWT_SECRET : string)
  (TOTAL_DECIMALS : positive) (req : Request) (w : World) :
  let route := worker_route jwt_verify WORKER_JWT_SECRET (post_payout TOTAL_DECIMALS) req w in
  (forall message, fst route = inl message -> snd route = w)
  /\ (forall response,
        fst route = inr response ->
        exists token id,
          authorization req = Some token
          /\ jwt_verify token WORKER_JWT_SECRET = inr (Some id)
          /\ id <> 0
          /\ (response, snd route) = post_payout TOTAL_DECIMALS id w).
Proof.
  unfold worker_route, workerMiddleware, verifyJwt.
  destruct (authorization req) as [[| c token] |]; cbn -[post_payout];
    try (split; [reflexivity | discriminate]).
  destruct (jwt_verify (String c token) WORKER_JWT_SECRET) as [e | [id |]] eqn:Hverify;
    cbn -[post_payout]; try (split; [reflexivity | discriminate]).
  destruct (Z.eqb_spec id 0); cbn -[post_payout]; [split; [reflexivity | discriminate] |].
  destruct (post_payout TOTAL_DECIMALS id w) as [response w'] eqn:Hrun.
  cbn [fst snd]. split; [discriminate |].
  intros response' [= <-]. exists (String c token), id. auto.
Qed.

(** ** Signing in *)

Lemma worker_by_address_Some (a : string) (d : Db) (id : Z) (row : Worker) :
  worker_by_address a d = Some (id, row) ->
  workers d !! id = Some row /\ address row = a.
Proof.
  unfold worker_by_address. intros Hfind. apply find_some in Hfind as [Hin Heq].
  cbn [snd] in Heq. apply String.eqb_eq in Heq.
  apply list_elem_of_In, elem_of_map_to_list in Hin. auto.
Qed.

Lemma worker_by_address_None (a : string) (d : Db) :
  worker_by_address a d = None ->
  forall id row, workers d !! id = Some row -> address row <> a.
Proof.
  unfold worker_by_address. intros Hfind id row Hrow Heq.
  apply elem_of_map_to_list, list_elem_of_In in Hrow.
  pose proof (find_none _ _ Hfind _ Hrow) as Hno. cbn [snd] in Hno.
  apply String.eqb_neq in Hno. congruence.
Qed.

Section SigninProperties.

Variable TOTAL_DECIMALS : positive.
Variable WORKER_JWT_SECRET : string.
Variable signature_verifies : string -> list Z -> Thrown + bool.
Variable assign_id : Db -> Z.

Local Abbreviation signin jwt_sign :=
  (post_signin TOTAL_DECIMALS WORKER_JWT_SECRET signature_verifies jwt_sign assign_id).

(** A sign-in changes nothing but the worker table, and that by one
    new row at most. *)
Lemma post_signin_effect (jwt_sign : Z -> string -> Thrown + string)
  (body : option SigninBody) (w : World) :
  payouts (db (snd (signin jwt_sign body w))) = payouts (db w)
  /\ queue (snd (signin jwt_sign body w)) = queue w
  /\ console (snd (signin jwt_sign body w)) = console w
  /\ submitted (snd (signin jwt_sign body w)) = submitted w
  /\ (workers (db (snd (signin jwt_sign body w))) = workers (db w)
      \/ exists data,
           body = Some data
           /\ signature_verifies (publicKey data) (signature_numbers data) = inr true
           /\ worker_by_address (publicKey data) (db w) = None
           /\ workers (db (snd (signin jwt_sign body w)))
              = <[assign_id (db w) := mkWorker (publicKey data) 0 0]> (workers (db w))).
Proof.
  unfold post_signin. destruct body as [data |]; [| cbn; auto 6].
  destruct (signature_verifies (publicKey data) (signature_numbers data))
    as [e | [|]] eqn:Hverify; try (cbn; auto 6).
  destruct (worker_by_address (publicKey data) (db w)) as [[id existingUser] |] eqn:Hfind.
  - destruct (jwt_sign id WORKER_JWT_SECRET); cbn; auto 6.
  - destruct (jwt_sign (assign_id (db w)) WORKER_JWT_SECRET); cbn;
      repeat split; right; exists data; auto.
Qed.

(** X10. Provided the store gives a new row a key that is not in use, a
    sign-in never changes or removes a row, a payout, or the queue: what
    it may add is one row for the address of the body, with nothing
    pending and nothing locked, and only when the signature verified and
    no row had that address. *)
Theorem signin_adds_one_empty_row_at_most
  (jwt_sign : Z -> string -> Thrown + string) (body : option SigninBody) (w : World) :
  (forall d, workers d !! assign_id d = None) ->
  let w' := snd (signin jwt_sign body w) in
  payouts (db w') = payouts (db w)
  /\ queue w' = queue w
  /\ (forall id row, workers (db w) !! id = Some row -> workers (db w') !! id = Some row)
  /\ (forall id row,
        workers (db w') !! id = Some row ->
        workers (db w) !! id = Some row
        \/ exists data,
             body = Some data
             /\ row = mkWorker (publicKey data) 0 0
             /\ signature_verifies (publicKey data) (signature_numbers data) = inr true
             /\ forall i old, workers (db w) !! i = Some old -> address old <> publicKey data).
Proof.
  intros Hfresh w'.
  destruct (post_signin_effect jwt_sign body w)
    as (Hpay & Hqueue & _ & _ & [Hsame | (data & Hbody & Hverify & Hnone & Hnew)]);
    fold w' in Hpay, Hqueue.
  - fold w' in Hsame. rewrite Hsame. auto.
  - fold w' in Hnew. rewrite Hnew. repeat split; auto.
    + intros id row Hrow. rewrite lookup_insert_ne; [exact Hrow |].
      intros <-. rewrite Hfresh in Hrow. discriminate Hrow.
    + intros id row Hrow. rewrite lookup_insert in Hrow.
      destruct (decide (assign_id (db w) = id)); [| auto].
      injection Hrow as <-. right. exists data. repeat split; auto.
      apply worker_by_address_None. exact Hnone.
Qed.

(** X11. A sign-in that answers with a token signed it for the id of a row
    that carries the address of the body and is in the table after the
    call; the signature verified, and the amount it reports is that
    row's pending amount over [TOTAL_DECIMALS]. *)
Theorem signin_token_is_for_the_address
  (jwt_sign : Z -> string -> Thrown + string) (body : option SigninBody) (w : World)
  (token : string) (amount : Q) :
  fst (signin jwt_sign body w) = SigninJson token amount ->
  exists data id row,
    body = Some data
    /\ signature_verifies (publicKey data) (signature_numbers data) = inr true
    /\ workers (db (snd (signin jwt_sign body w))) !! id = Some row
    /\ address row = publicKey data
    /\ jwt_sign id WORKER_JWT_SECRET = inr token
    /\ Qeq amount (js_div (pending_amount row) TOTAL_DECIMALS).
Proof.
  unfold post_signin. destruct body as [data |]; [| discriminate].
  destruct (signature_verifies (publicKey data) (signature_numbers data))
    as [e | [|]] eqn:Hverify; try discriminate.
  destruct (worker_by_address (publicKey data) (db w)) as [[id existingUser] |] eqn:Hfind.
  - destruct (jwt_sign id WORKER_JWT_SECRET) as [e | token'] eqn:Hsign; [discriminate |].
    cbn [fst snd]. intros [= <- <-].
    destruct (worker_by_address_Some _ _ _ _ Hfind) as [Hrow Haddress].
    exists data, id, existingUser. repeat split; auto.
  - destruct (jwt_sign (assign_id (db w)) WORKER_JWT_SECRET) as [e | token'] eqn:Hsign;
      [discriminate |].
    cbn [fst snd]. intros [= <- <-].
    exists data, (assign_id (db w)), (mkWorker (publicKey data) 0 0).
    repeat split; auto.
    cbn [db with_db workers]. apply lookup_insert_eq.
Qed.

(** X12. Provided the store gives a new row a key that is not in use, a
    sign-in keeps the addresses of the table distinct. *)
Theorem signin_keeps_addresses_unique
  (jwt_sign : Z -> string -> Thrown + string) (body : option SigninBody) (w : World) :
  (forall d, workers d !! assign_id d = None) ->
  addresses_unique (db w) ->
  addresses_unique (db (snd (signin jwt_sign body w))).
Proof.
  intros Hfresh Hunique.
  destruct (post_signin_effect jwt_sign body w)
    as (_ & _ & _ & _ & [Hsame | (data & Hbody & Hverify & Hnone & Hnew)]);
    unfold addresses_unique.
  - rewrite Hsame. exact Hunique.
  - rewrite Hnew. intros i j wi wj Hi Hj Haddress.
    rewrite lookup_insert in Hi, Hj.
    pose proof (worker_by_address_None _ _ Hnone) as Hno.
    destruct (decide (assign_id (db w) = i)) as [<- | Hi'];
      destruct (decide (assign_id (db w) = j)) as [<- | Hj']; [reflexivity | | |].
    + injection Hi as <-. cbn [address] in Haddress. exfalso.
      exact (Hno j wj Hj (eq_sym Haddress)).
    + injection Hj as <-. cbn [address] in Haddress. exfalso.
      exact (Hno i wi Hi Haddress).
    + exact (Hunique i j wi wj Hi Hj Haddress).
Qed.

Lemma signin_leaves_a_row (jwt_sign : Z -> string -> Thrown + string)
  (data : SigninBody) (w : World) :
  signature_verifies (publicKey data) (signature_numbers data) = inr true ->
  exists id row,
    workers (db (snd (signin jwt_sign (Some data) w))) !! id = Some row
    /\ address row = publicKey data.
Proof.
  intros Hverify. unfold post_signin. rewrite Hverify.
  destruct (worker_by_address (publicKey data) (db w)) as [[id existingUser] |] eqn:Hfind.
  - destruct (worker_by_address_Some _ _ _ _ Hfind) as [Hrow Haddress].
    exists id, existingUser. destruct (jwt_sign id WORKER_JWT_SECRET); cbn [snd]; auto.
  - exists (assign_id (db w)), (mkWorker (publicKey data) 0 0).
    destruct (jwt_sign (assign_id (db w)) WORKER_JWT_SECRET);
      cbn [snd db with_db workers address]; split; try reflexivity; apply lookup_insert_eq.
Qed.

(** X13. The same sign-in sent again creates nothing: after the first call
    the table has a row for the address whenever the signature
    verifies, so the second call leaves the store as the first left it
    (whatever tokens the two calls sign). *)
Theorem repeated_signin_creates_nothing
  (jwt_sign1 jwt_sign2 : Z -> string -> Thrown + string)
  (body : option SigninBody) (w : World) :
  db (snd (signin jwt_sign2 body (snd (signin jwt_sign1 body w))))
  = db (snd (signin jwt_sign1 body w)).
Proof.
  set (w1 := snd (signin jwt_sign1 body w)).
  assert (Hdb : forall w2 : World,
             workers (db w2) = workers (db w1) -> payouts (db w2) = payouts (db w1) ->
             db w2 = db w1).
  { intros w2 Hworkers Hpayouts. destruct (db w2), (db w1). cbn in *. congruence. }
  destruct (post_signin_effect jwt_sign2 body w1)
    as (Hpay & _ & _ & _ & [Hsame | (data & Hbody & Hverify & Hnone & _)]);
    [apply Hdb; assumption |].
  exfalso. subst body.
  destruct (signin_leaves_a_row jwt_sign1 data w Hverify) as (id & row & Hrow & Haddress).
  exact (worker_by_address_None _ _ Hnone id row Hrow Haddress).
Qed.

End SigninProperties.

(** ** Tasks and submissions *)

Lemma submitted_by_true (userId : Z) (t : Task) (rows : list Submission) :
  submitted_by userId t rows = true
  <-> exists row,
        In row rows /\ submission_task row = task_id t /\ submission_worker row = userId.
Proof.
  unfold submitted_by. rewrite existsb_exists. split.
  - intros (row & Hin & Hrow). apply andb_prop in Hrow as [Ht Hu].
    exists row. split; [exact Hin |]. split; apply Z.eqb_eq; assumption.
  - intros (row & Hin & Ht & Hu). exists row. split; [exact Hin |].
    rewrite Ht, Hu, !Z.eqb_refl. reflexivity.
Qed.

Lemma getNextTask_Some (userId : Z) (k : Desk) (task : Task) :
  getNextTask userId k = Some task ->
  In task (tasks k) /\ done task = false
  /\ submitted_by userId task (submissions k) = false.
Proof.
  unfold getNextTask. intros Hfind. apply find_some in Hfind as [Hin Hok].
  apply andb_prop in Hok as [Hdone Hsub].
  apply negb_true_iff in Hdone, Hsub. auto.
Qed.

Lemma getNextTask_None (userId : Z) (k : Desk) :
  getNextTask userId k = None
  <-> forall task, In task (tasks k) ->
        done task = true \/ submitted_by userId task (submissions k) = true.
Proof.
  unfold getNextTask. split.
  - intros Hfind task Hin. pose proof (find_none _ _ Hfind _ Hin) as Hno.
    apply andb_false_iff in Hno as [Hno | Hno]; apply negb_false_iff in Hno; auto.
  - intros Hall. destruct (List.find _ (tasks k)) as [task |] eqn:Hfind; [| reflexivity].
    apply find_some in Hfind as [Hin Hok]. apply andb_prop in Hok as [Hdone Hsub].
    apply negb_true_iff in Hdone, Hsub.
    destruct (Hall task Hin); congruence.
Qed.

(** X14. [/nextTask] changes nothing. It answers a task of the table that
    is not done and has no submission of the worker; it answers 411
    exactly when every task is done or has one. *)
Theorem nextTask_is_open_and_new (userId : Z) (k : Desk) :
  snd (get_nextTask userId k) = k
  /\ (forall task,
        fst (get_nextTask userId k) = NextTaskJson task ->
        In task (tasks k) /\ done task = false
        /\ forall row, In row (submissions k) ->
             submission_worker row = userId -> submission_task row <> task_id task)
  /\ ((exists message, fst (get_nextTask userId k) = NextTask411 message)
      <-> forall task, In task (tasks k) ->
            done task = true
            \/ exists row, In row (submissions k)
                 /\ submission_task row = task_id task /\ submission_worker row = userId).
Proof.
  unfold get_nextTask.
  destruct (getNextTask userId k) as [task |] eqn:Hnext; cbn [fst snd].
  - split; [reflexivity |]. split.
    + intros task' [= <-]. destruct (getNextTask_Some _ _ _ Hnext) as (Hin & Hdone & Hsub).
      split; [exact Hin |]. split; [exact Hdone |].
      intros row Hrow Hworker Htask.
      assert (Htrue : submitted_by userId task (submissions k) = true)
        by (apply submitted_by_true; eauto).
      congruence.
    + split; [intros (message & Heq); discriminate Heq |].
      intros Hall. exfalso.
      destruct (getNextTask_Some _ _ _ Hnext) as (Hin & Hdone & Hsub).
      destruct (Hall task Hin) as [Hd | Hrow]; [congruence |].
      apply submitted_by_true in Hrow. congruence.
  - split; [reflexivity |]. split; [discriminate |].
    split.
    + intros _ task Hin.
      destruct (proj1 (getNextTask_None userId k) Hnext task Hin) as [Hd | Hs]; [auto |].
      right. apply submitted_by_true. exact Hs.
    + intros _. eauto.
Qed.

Lemma stored_exact (a : Z) (b : positive) (n : Z) :
  stored (js_div a b) = Some n -> a = n * Zpos b.
Proof.
  unfold stored, js_div. cbn [Qnum Qden].
  destruct (Z.eqb_spec (a mod Z.pos b) 0) as [Hmod |]; [| discriminate].
  intros [= <-]. rewrite Z.mul_comm. apply Z.div_exact; [lia | exact Hmod].
Qed.

Section SubmissionProperties.

Variable TOTAL_SUBMISSIONS : positive.
Variable option_exists : Z -> bool.

Local Abbreviation submit := (post_submission TOTAL_SUBMISSIONS option_exists).

(** The desk after the submission of [choice] for [task] credited
    [row] with [n]. *)
Local Abbreviation credited_desk k userId task choice n row :=
  (mkDesk
     (with_db (mkDb (insert (userId : Z) (credit n row) (workers (db (world k))))
                    (payouts (db (world k))))
        (world k))
     (tasks k)
     (submissions k ++ [mkSubmission userId (task_id task) choice n])).

Lemma post_submission_effect (userId : Z) (parsedBody : option SubmissionInput) (k : Desk) :
  (snd (submit userId parsedBody k) = k
   /\ forall nextTask amount,
        fst (submit userId parsedBody k) <> Fulfilled (SubmissionJson nextTask amount))
  \/ exists data task choice n row,
       parsedBody = Some data
       /\ getNextTask userId k = Some task
       /\ taskId data = Int (task_id task)
       /\ selection data = Int choice
       /\ option_exists choice = true
       /\ task_amount task = n * Zpos TOTAL_SUBMISSIONS
       /\ workers (db (world k)) !! userId = Some row
       /\ snd (submit userId parsedBody k) = credited_desk k userId task choice n row
       /\ fst (submit userId parsedBody k)
          = Fulfilled (SubmissionJson
                         (getNextTask userId (credited_desk k userId task choice n row))
                         (js_div (task_amount task) TOTAL_SUBMISSIONS)).
Proof.
  unfold post_submission.
  destruct parsedBody as [data |]; [| left; split; [reflexivity | discriminate]].
  destruct (getNextTask userId k) as [task |] eqn:Hnext;
    [| left; split; [reflexivity | discriminate]].
  destruct (taskId data) as [n0 |] eqn:Hid; [| left; split; [reflexivity | discriminate]].
  destruct (Z.eqb_spec (task_id task) n0) as [<- |];
    [| left; split; [reflexivity | discriminate]].
  unfold submit_and_credit, worker_update.
  destruct (selection data) as [choice |] eqn:Hchoice;
    [| left; split; [reflexivity | discriminate]].
  destruct (stored (js_div (task_amount task) TOTAL_SUBMISSIONS)) as [n |] eqn:Hstored;
    [| left; split; [reflexivity | discriminate]].
  destruct (option_exists choice) eqn:Hoption;
    [| left; split; [reflexivity | discriminate]].
  destruct (workers (db (world k)) !! userId) as [row |] eqn:Hrow;
    [| left; split; [reflexivity | discriminate]].
  right. exists data, task, choice, n, row.
  repeat split; auto. apply stored_exact. exact Hstored.
Qed.

(** X15. A submission is recorded together with its credit or not at all.
    Either the desk is as before, or the body names the task that is
    open for the worker and selects an option, the answer is the next
    task and the amount, one row for the worker, that task and the
    option selected in the body is appended, and the worker's pending
    amount grows by the task's amount divided by [TOTAL_SUBMISSIONS],
    which divides it; no other row, no locked amount, no payout and no
    task changes. *)
Theorem submission_is_credited_or_dropped
  (userId : Z) (parsedBody : option SubmissionInput) (k : Desk) :
  let k' := snd (submit userId parsedBody k) in
  k' = k
  \/ exists data task choice n row,
       parsedBody = Some data
       /\ taskId data = Int (task_id task)
       /\ selection data = Int choice
       /\ getNextTask userId k = Some task
       /\ fst (submit userId parsedBody k)
          = Fulfilled (SubmissionJson (getNextTask userId k')
                         (js_div (task_amount task) TOTAL_SUBMISSIONS))
       /\ task_amount task = n * Zpos TOTAL_SUBMISSIONS
       /\ workers (db (world k)) !! userId = Some row
       /\ submissions k' = submissions k ++ [mkSubmission userId (task_id task) choice n]
       /\ workers (db (world k')) !! userId
          = Some (mkWorker (address row) (pending_amount row + n) (locked_amount row))
       /\ (forall other, other <> userId ->
             workers (db (world k')) !! other = workers (db (world k)) !! other)
       /\ payouts (db (world k')) = payouts (db (world k))
       /\ tasks k' = tasks k
       /\ queue (world k') = queue (world k).
Proof.
  intros k'.
  destruct (post_submission_effect userId parsedBody k)
    as [[Hsame _] | (data & task & choice & n & row
                     & Hbody & Hnext & Hid & Hchoice & _ & Hamount & Hrow & Hk' & Hanswer)];
    [left; exact Hsame |].
  right. exists data, task, choice, n, row. subst k'. rewrite Hk'.
  cbn [submissions world db with_db workers payouts tasks queue].
  repeat split; auto.
  - apply lookup_insert_eq.
  - intros other Hother. apply lookup_insert_ne. congruence.
Qed.

(** X16. A submission that was answered with the next task cannot be sent
    again: the task it named is no longer open for the worker, so the
    same body is answered 411 and changes nothing. *)
Theorem resubmission_is_refused
  (userId : Z) (data : SubmissionInput) (k : Desk) (nextTask : option Task) (amount : Q) :
  fst (submit userId (Some data) k) = Fulfilled (SubmissionJson nextTask amount) ->
  submit userId (Some data) (snd (submit userId (Some data) k))
  = (Fulfilled (Submission411 "Incorrect task id"), snd (submit userId (Some data) k)).
Proof.
  intros Hfirst.
  destruct (post_submission_effect userId (Some data) k)
    as [[_ Hnot] | (data' & task & choice & n & row
                    & [= <-] & _ & Hid & _ & _ & _ & _ & Hk' & _)];
    [exfalso; exact (Hnot _ _ Hfirst) |].
  rewrite Hk'. unfold post_submission at 1.
  destruct (getNextTask userId (credited_desk k userId task choice n row))
    as [task2 |] eqn:Hnext2; [| reflexivity].
  rewrite Hid.
  destruct (Z.eqb_spec (task_id task2) (task_id task)) as [Heq |]; [| reflexivity].
  exfalso.
  destruct (getNextTask_Some _ _ _ Hnext2) as (_ & _ & Hsub).
  cbn [submissions] in Hsub.
  assert (Htrue : submitted_by userId task2
                    (submissions k ++ [mkSubmission userId (task_id task) choice n]) = true).
  { apply submitted_by_true. eexists. split; [apply in_or_app; right; left; reflexivity |].
    cbn. auto. }
  congruence.
Qed.

End SubmissionProperties.

(** ** What every sequence of operations keeps *)

Lemma Db_eta (d : Db) : d = mkDb (workers d) (payouts d).
Proof. destruct d; reflexivity. Qed.

Lemma credited_app (userId : Z) (rows more : list Submission) :
  credited userId (rows ++ more) = credited userId rows + credited userId more.
Proof.
  unfold credited. rewrite List.filter_app, map_app.
  induction (map submission_amount (List.filter _ rows)) as [| a l IH]; cbn; lia.
Qed.

Lemma lock_keeps_funds (TOTAL_DECIMALS : positive) (userId id : Z) (w : World) :
  funds id (db (snd (post_payout TOTAL_DECIMALS userId w))) = funds id (db w).
Proof.
  destruct (post_payout_effect TOTAL_DECIMALS userId w)
    as (_ & _ & [(message & _ & Hdb & _) | (worker & Hfound & _ & _ & Hdb & _)]);
    rewrite Hdb; [reflexivity |].
  rewrite funds_insert. destruct (decide (userId = id)) as [<- |].
  - rewrite (Db_eta (db w)) at 2. unfold funds. unfold findUnique in Hfound.
    cbn [workers]. rewrite Hfound. cbn [pending_amount locked_amount].
    unfold payouts_findMany. cbn [payouts]. lia.
  - rewrite <- Db_eta. reflexivity.
Qed.

Section TraceProperties.

Variable TOTAL_DECIMALS : positive.
Variable TOTAL_SUBMISSIONS : positive.
Variable THRESHOLD : nat.
Variable PARENT_WALLET_PUBLIC_KEY : option string.
Variable DISTRIBUTED_SERVER_ENDPOINTS : list string.
Variable WORKER_JWT_SECRET : string.
Variable sss_combine : list (list JsNumber) -> option (list byte).
Variable bs58_decode : string -> option (list byte).
Variable Keypair : Type.
Variable Keypair_fromSecretKey : list byte -> option Keypair.
Variable PublicKey_error : string -> option Thrown.
Variable transfer_error : double -> option Thrown.
Variable signature_verifies : string -> list Z -> Thrown + bool.
Variable jwt_sign : Z -> string -> Thrown + string.
Variable assign_id : Db -> Z.
Variable option_exists : Z -> bool.

Local Abbreviation step :=
  (perform TOTAL_DECIMALS TOTAL_SUBMISSIONS THRESHOLD PARENT_WALLET_PUBLIC_KEY
     DISTRIBUTED_SERVER_ENDPOINTS WORKER_JWT_SECRET sss_combine bs58_decode Keypair
     Keypair_fromSecretKey PublicKey_error transfer_error signature_verifies jwt_sign
     assign_id option_exists).
Local Abbreviation steps :=
  (perform_all TOTAL_DECIMALS TOTAL_SUBMISSIONS THRESHOLD PARENT_WALLET_PUBLIC_KEY
     DISTRIBUTED_SERVER_ENDPOINTS WORKER_JWT_SECRET sss_combine bs58_decode Keypair
     Keypair_fromSecretKey PublicKey_error transfer_error signature_verifies jwt_sign
     assign_id option_exists).
Local Abbreviation settle :=
  (process_Queue TOTAL_DECIMALS THRESHOLD PARENT_WALLET_PUBLIC_KEY
     DISTRIBUTED_SERVER_ENDPOINTS sss_combine bs58_decode Keypair
     Keypair_fromSecretKey PublicKey_error transfer_error).

Lemma steps_cons (op : Operation Keypair) (ops : list (Operation Keypair)) (k : Desk) :
  steps (op :: ops) k = steps ops (step op k).
Proof. reflexivity. Qed.

Lemma job_keeps_funds (net : Network Keypair) (job : Job) (id : Z) (w : World) :
  funds id (db (snd (settle net job w))) = funds id (db w).
Proof.
  destruct (process_Queue_effect TOTAL_DECIMALS THRESHOLD PARENT_WALLET_PUBLIC_KEY
              DISTRIBUTED_SERVER_ENDPOINTS sss_combine bs58_decode Keypair
              Keypair_fromSecretKey PublicKey_error transfer_error net job w)
    as (_ & [(Hdb & _) | (found & parent & keypair & signature
                          & Hfound & _ & _ & _ & Hdb & _)]);
    rewrite Hdb; [reflexivity |].
  rewrite funds_insert, (Db_eta (db w)) at 1.
  unfold funds at 1 2. cbn [workers]. unfold findUnique in Hfound.
  rewrite !payouts_findMany_app, !totalEarning_app. cbn [List.filter worker_id].
  destruct (decide (workerId job = id)) as [<- | Hne].
  - rewrite Hfound, Z.eqb_refl. unfold totalEarning at 2. cbn [fold_left amount].
    cbn [pending_amount locked_amount]. lia.
  - destruct (Z.eqb_spec (workerId job) id); [congruence |].
    unfold totalEarning at 2. cbn [fold_left]. lia.
Qed.

Lemma step_keeps_tasks (op : Operation Keypair) (k : Desk) : tasks (step op k) = tasks k.
Proof.
  destruct op as [body | userId parsedBody | userId | net job]; try reflexivity.
  cbn [perform].
  destruct (post_submission_effect TOTAL_SUBMISSIONS option_exists userId parsedBody k)
    as [[Hsame _] | (data & task & choice & n & row & _ & _ & _ & _ & _ & _ & _ & Hk' & _)];
    [rewrite Hsame | rewrite Hk']; reflexivity.
Qed.

Lemma step_keeps_unaccounted (op : Operation Keypair) (k : Desk) (id : Z) :
  (forall d, workers d !! assign_id d = None) ->
  unaccounted id (step op k) = unaccounted id k.
Proof.
  intros Hfresh. unfold unaccounted.
  destruct op as [body | userId parsedBody | userId | net job]; cbn [perform].
  - cbn [with_world world submissions]. f_equal.
    destruct (post_signin_effect TOTAL_DECIMALS WORKER_JWT_SECRET signature_verifies
                assign_id jwt_sign body (world k))
      as (Hpay & _ & _ & _ & [Hsame | (data & _ & _ & _ & Hnew)]).
    + rewrite (Db_eta (db (snd _))), Hsame, Hpay, <- Db_eta. reflexivity.
    + rewrite (Db_eta (db (snd _))), Hnew, Hpay, funds_insert, <- Db_eta.
      destruct (decide (assign_id (db (world k)) = id)) as [<- |]; [| reflexivity].
      unfold funds. rewrite Hfresh. reflexivity.
  - destruct (post_submission_effect TOTAL_SUBMISSIONS option_exists userId parsedBody k)
      as [[Hsame _] | (data & task & choice & n & row
                       & _ & _ & _ & _ & _ & _ & Hrow & Hk' & _)];
      [rewrite Hsame; reflexivity |].
    rewrite Hk'. cbn [world submissions db with_db].
    rewrite funds_insert, credited_app, <- Db_eta.
    unfold credited at 2. cbn [List.filter submission_worker].
    destruct (decide (userId = id)) as [<- | Hne].
    + rewrite Z.eqb_refl. cbn [map fold_right submission_amount].
      unfold funds, payouts_findMany. rewrite Hrow.
      cbn [pending_amount locked_amount credit payouts]. lia.
    + destruct (Z.eqb_spec userId id); [congruence |]. cbn [map fold_right].
      unfold funds, payouts_findMany. cbn [payouts workers]. lia.
  - cbn [with_world world submissions]. f_equal. apply lock_keeps_funds.
  - cbn [with_world world submissions]. f_equal. apply job_keeps_funds.
Qed.

(** X17. Funds are conserved. Provided the store gives a new row a key
    that is not in use, no sequence of sign-ins, submissions, payout
    requests and jobs changes, for any worker, the pending amount plus
    the locked amount plus the amounts of the worker's payout rows minus
    what the worker's submissions credited. *)
Theorem funds_are_conserved (ops : list (Operation Keypair)) (k : Desk) (id : Z) :
  (forall d, workers d !! assign_id d = None) ->
  unaccounted id (steps ops k) = unaccounted id k.
Proof.
  intros Hfresh. revert k. induction ops as [| op ops IH]; intros k; [reflexivity |].
  rewrite steps_cons, IH. apply step_keeps_unaccounted. exact Hfresh.
Qed.

Lemma nonnegative_insert (id : Z) (row : Worker) (d : Db) (rows : list Payout) :
  balances_nonnegative d ->
  0 <= pending_amount row -> 0 <= locked_amount row ->
  balances_nonnegative (mkDb (<[id := row]> (workers d)) rows).
Proof.
  intros Hd Hp Hl i w Hrow. cbn [workers] in Hrow. rewrite lookup_insert in Hrow.
  destruct (decide (id = i)); [injection Hrow as <-; auto | exact (Hd i w Hrow)].
Qed.

Lemma step_keeps_nonnegative (op : Operation Keypair) (k : Desk) :
  (forall task, In task (tasks k) -> 0 <= task_amount task) ->
  balances_nonnegative (db (world k)) ->
  balances_nonnegative (db (world (step op k))).
Proof.
  intros Htasks Hk.
  destruct op as [body | userId parsedBody | userId | net job]; cbn [perform].
  - cbn [with_world world].
    destruct (post_signin_effect TOTAL_DECIMALS WORKER_JWT_SECRET signature_verifies
                assign_id jwt_sign body (world k))
      as (Hpay & _ & _ & _ & [Hsame | (data & _ & _ & _ & Hnew)]);
      rewrite (Db_eta (db (snd _))).
    + rewrite Hsame, Hpay, <- Db_eta. exact Hk.
    + rewrite Hnew. apply nonnegative_insert; cbn; [exact Hk | lia | lia].
  - destruct (post_submission_effect TOTAL_SUBMISSIONS option_exists userId parsedBody k)
      as [[Hsame _] | (data & task & choice & n & row
                       & _ & Hnext & _ & _ & _ & Hamount & Hrow & Hk' & _)];
      [rewrite Hsame; exact Hk |].
    rewrite Hk'. cbn [world db with_db].
    destruct (Hk userId row Hrow) as [Hp Hl].
    apply getNextTask_Some in Hnext as (Hin & _).
    specialize (Htasks task Hin).
    apply nonnegative_insert; cbn [credit pending_amount locked_amount]; [exact Hk | nia | lia].
  - cbn [with_world world].
    destruct (post_payout_effect TOTAL_DECIMALS userId (world k))
      as (_ & _ & [(message & _ & Hdb & _) | (worker & Hfound & _ & _ & Hdb & _)]);
      rewrite Hdb; [exact Hk |].
    destruct (Hk userId worker Hfound) as [Hp Hl].
    apply nonnegative_insert; cbn [pending_amount locked_amount]; [exact Hk | lia | lia].
  - cbn [with_world world].
    destruct (process_Queue_effect TOTAL_DECIMALS THRESHOLD PARENT_WALLET_PUBLIC_KEY
                DISTRIBUTED_SERVER_ENDPOINTS sss_combine bs58_decode Keypair
                Keypair_fromSecretKey PublicKey_error transfer_error net job (world k))
      as (_ & [(Hdb & _) | (found & parent & keypair & signature
                            & Hfound & _ & _ & _ & Hdb & _)]);
      rewrite Hdb; [exact Hk |].
    destruct (Hk (workerId job) found Hfound) as [Hp Hl].
    apply nonnegative_insert; cbn [pending_amount locked_amount]; [exact Hk | lia | lia].
Qed.

(** X18. Balances never go negative. From a table without a negative
    balance, and with no task of negative amount, every sequence of
    sign-ins, submissions, payout requests and jobs leads to a table
    without a negative balance. *)
Theorem balances_stay_nonnegative (ops : list (Operation Keypair)) (k : Desk) :
  (forall task, In task (tasks k) -> 0 <= task_amount task) ->
  balances_nonnegative (db (world k)) ->
  balances_nonnegative (db (world (steps ops k))).
Proof.
  revert k. induction ops as [| op ops IH]; intros k Htasks Hk; [exact Hk |].
  rewrite steps_cons. apply IH.
  - rewrite step_keeps_tasks. exact Htasks.
  - apply step_keeps_nonnegative; assumption.
Qed.

Lemma step_keeps_one_submission_each (op : Operation Keypair) (k : Desk) :
  one_submission_each (submissions k) -> one_submission_each (submissions (step op k)).
Proof.
  intros Hk.
  destruct op as [body | userId parsedBody | userId | net job]; try exact Hk.
  cbn [perform].
  destruct (post_submission_effect TOTAL_SUBMISSIONS option_exists userId parsedBody k)
    as [[Hsame _] | (data & task & choice & n & row
                     & _ & Hnext & _ & _ & _ & _ & _ & Hk' & _)];
    [rewrite Hsame; exact Hk |].
  rewrite Hk'. cbn [submissions]. unfold one_submission_each in *.
  rewrite map_app. cbn [map submission_worker submission_task].
  apply NoDup_app. split; [exact Hk |]. split; [| apply NoDup_singleton].
  intros pair Hpair Hnew. apply list_elem_of_singleton in Hnew. subst pair.
  apply list_elem_of_In, in_map_iff in Hpair as (old & Hold & Hin).
  injection Hold as Hworker Htask.
  apply getNextTask_Some in Hnext as (_ & _ & Hsub).
  assert (Htrue : submitted_by userId task (submissions k) = true)
    by (apply submitted_by_true; eauto).
  congruence.
Qed.

(** X19. One submission per worker and task. From a table in which no
    worker has two submissions for one task, no sequence of operations
    leads to one in which a worker has. *)
Theorem one_submission_per_task (ops : list (Operation Keypair)) (k : Desk) :
  one_submission_each (submissions k) ->
  one_submission_each (submissions (steps ops k)).
Proof.
  revert k. induction ops as [| op ops IH]; intros k Hk; [exact Hk |].
  rewrite steps_cons. apply IH, step_keeps_one_submission_each, Hk.
Qed.

Lemma step_appends_payouts (op : Operation Keypair) (k : Desk) :
  exists rows,
    payouts (db (world (step op k))) = payouts (db (world k)) ++ rows
    /\ Forall (fun row => status row = Success) rows.
Proof.
  destruct op as [body | userId parsedBody | userId | net job]; cbn [perform].
  - exists []. rewrite app_nil_r. split; [| constructor]. cbn [with_world world].
    apply (post_signin_effect TOTAL_DECIMALS WORKER_JWT_SECRET signature_verifies
             assign_id jwt_sign body (world k)).
  - exists []. rewrite app_nil_r. split; [| constructor].
    destruct (post_submission_effect TOTAL_SUBMISSIONS option_exists userId parsedBody k)
      as [[Hsame _] | (data & task & choice & n & row
                       & _ & _ & _ & _ & _ & _ & _ & Hk' & _)];
      [rewrite Hsame | rewrite Hk']; reflexivity.
  - exists []. rewrite app_nil_r. split; [| constructor]. cbn [with_world world].
    destruct (post_payout_effect TOTAL_DECIMALS userId (world k))
      as (_ & _ & [(message & _ & Hdb & _) | (worker & _ & _ & _ & Hdb & _)]);
      rewrite Hdb; reflexivity.
  - cbn [with_world world].
    destruct (process_Queue_effect TOTAL_DECIMALS THRESHOLD PARENT_WALLET_PUBLIC_KEY
                DISTRIBUTED_SERVER_ENDPOINTS sss_combine bs58_decode Keypair
                Keypair_fromSecretKey PublicKey_error transfer_error net job (world k))
      as (_ & [(Hdb & _) | (found & parent & keypair & signature
                            & _ & _ & _ & _ & Hdb & _)]);
      rewrite Hdb.
    + exists []. rewrite app_nil_r. split; [reflexivity | constructor].
    + eexists. split; [reflexivity |]. repeat constructor.
Qed.

(** X20. The payout history is only ever extended, and only with Success
    rows: after any sequence of operations the payouts are those of
    before, in their order and unchanged, followed by rows of status
    Success. The tasks are not touched at all. *)
Theorem payouts_are_only_appended (ops : list (Operation Keypair)) (k : Desk) :
  tasks (steps ops k) = tasks k
  /\ exists rows,
       payouts (db (world (steps ops k))) = payouts (db (world k)) ++ rows
       /\ Forall (fun row => status row = Success) rows.
Proof.
  revert k. induction ops as [| op ops IH]; intros k.
  - split; [reflexivity |]. exists []. rewrite app_nil_r. split; [reflexivity | constructor].
  - rewrite steps_cons. destruct (IH (step op k)) as (Htasks & rows & Hrows & Hall).
    split; [rewrite Htasks; apply step_keeps_tasks |].
    destruct (step_appends_payouts op k) as (first & Hfirst & Hsuccess).
    exists (first ++ rows). rewrite Hrows, Hfirst, app_assoc.
    split; [reflexivity | apply Forall_app; auto].
Qed.

End TraceProperties.

(** ** The further properties, run *)

Lemma bench_assign_id_fresh (d : Db) : workers d !! Bench.assign_id d = None.
Proof.
  apply not_elem_of_dom. unfold Bench.assign_id.
  pose proof (is_fresh ({[0]} ∪ dom (workers d))) as Hfresh. set_solver.
Qed.

(** A worker with 5000 pending asks for a payout and is paid. *)
Lemma lock_then_paid_job_witness :
  let w1 := snd (post_payout Demo.TOTAL_DECIMALS 1 (Demo.world_of 5000 0)) in
  let w2 := snd (Demo.run_job (Demo.accepting Demo.all_up "SIG1") (mkJob 1) w1) in
  findUnique 1 (db w2) = Some (mkWorker Demo.worker_address 0 0)
  /\ payouts (db w2) = [mkPayout 1 5000 Success "SIG1"].
Proof.
  destruct (lock_then_paid_job
              Demo.TOTAL_DECIMALS Demo.THRESHOLD Demo.PARENT_WALLET_PUBLIC_KEY
              Demo.DISTRIBUTED_SERVER_ENDPOINTS Demo.sss_combine Demo.bs58_decode
              Demo.Keypair Demo.Keypair_fromSecretKey Demo.PublicKey_error
              Demo.transfer_error
              1 (Demo.world_of 5000 0) (mkWorker Demo.worker_address 5000 0)
              (Demo.accepting Demo.all_up "SIG1") "SIG1")
    as (_ & Hrow & Hpayouts & _).
  - reflexivity.
  - cbn. lia.
  - unfold pays. do 2 eexists. vm_compute. reflexivity.
  - split; [exact Hrow | exact Hpayouts].
Defined.

(** After the job of scenario E, [/me] shows nothing locked and the
    5000 units as earned. *)
Lemma paid_job_shows_in_me_witness :
  fst (get_me Demo.TOTAL_DECIMALS 1
         (snd (Demo.run_job (Demo.accepting Demo.all_up "SIG1") (mkJob 1)
                 (Demo.world_of 0 5000))))
  = MeJson (mkWorker Demo.worker_address 0 0)
      (js_div 0 Demo.TOTAL_DECIMALS) (js_div 0 Demo.TOTAL_DECIMALS)
      (js_div 5000 Demo.TOTAL_DECIMALS).
Proof.
  destruct (paid_job_shows_in_me
              Demo.TOTAL_DECIMALS Demo.THRESHOLD Demo.PARENT_WALLET_PUBLIC_KEY
              Demo.DISTRIBUTED_SERVER_ENDPOINTS Demo.sss_combine Demo.bs58_decode
              Demo.Keypair Demo.Keypair_fromSecretKey Demo.PublicKey_error
              Demo.transfer_error
              (Demo.accepting Demo.all_up "SIG1") (mkJob 1) (Demo.world_of 0 5000)
              (mkWorker Demo.worker_address 0 5000) "SIG1")
    as (_ & Hafter).
  - reflexivity.
  - unfold pays. do 2 eexists. vm_compute. reflexivity.
  - exact Hafter.
Defined.

(** A first sign-in of a wallet adds its row and keeps the row that
    was there. *)
Lemma signin_adds_one_empty_row_at_most_witness :
  let w' := snd (Bench.signin
                   (Some (mkSigninBody "4wBqpZM9xaSheZzJSMawUKKwhdpChKbZ5eu5ky4Vigw" [1; 2; 3]))
                   (Demo.world_of 100 5000)) in
  payouts (db w') = []
  /\ workers (db w') !! 1 = Some (mkWorker Demo.worker_address 100 5000).
Proof.
  destruct (signin_adds_one_empty_row_at_most
              Demo.TOTAL_DECIMALS Bench.WORKER_JWT_SECRET Bench.signature_verifies
              Bench.assign_id Bench.jwt_sign
              (Some (mkSigninBody "4wBqpZM9xaSheZzJSMawUKKwhdpChKbZ5eu5ky4Vigw" [1; 2; 3]))
              (Demo.world_of 100 5000) bench_assign_id_fresh)
    as (Hpayouts & _ & Hkept & _).
  split; [exact Hpayouts |].
  apply Hkept. reflexivity.
Defined.

(** The token of a first sign-in is signed for the new row. *)
Lemma signin_token_is_for_the_address_witness :
  exists data id row,
    Bench.hello = Some data
    /\ Bench.signature_verifies (publicKey data) (signature_numbers data) = inr true
    /\ workers (db (snd (Bench.signin Bench.hello Bench.no_world))) !! id = Some row
    /\ address row = publicKey data
    /\ Bench.jwt_sign id Bench.WORKER_JWT_SECRET = inr "worker-secret.1"
    /\ Qeq (inject_Z 0) (js_div (pending_amount row) Demo.TOTAL_DECIMALS).
Proof.
  apply (signin_token_is_for_the_address
           Demo.TOTAL_DECIMALS Bench.WORKER_JWT_SECRET Bench.signature_verifies
           Bench.assign_id Bench.jwt_sign Bench.hello Bench.no_world
           "worker-secret.1" (inject_Z 0)).
  vm_compute. reflexivity.
Defined.

Lemma demo_addresses_unique (pending locked : Z) :
  addresses_unique (db (Demo.world_of pending locked)).
Proof.
  intros i j wi wj Hi Hj _. cbn in Hi, Hj.
  apply lookup_singleton_Some in Hi as [<- _].
  apply lookup_singleton_Some in Hj as [<- _]. reflexivity.
Qed.

(** The known wallet signs in again, and a second wallet signs in. *)
Lemma signin_keeps_addresses_unique_witness :
  addresses_unique (db (snd (Bench.signin Bench.hello (Demo.world_of 100 5000))))
  /\ addresses_unique
       (db (snd (Bench.signin
                   (Some (mkSigninBody "4wBqpZM9xaSheZzJSMawUKKwhdpChKbZ5eu5ky4Vigw"
                            [1; 2; 3]))
                   (Demo.world_of 100 5000)))).
Proof.
  split;
    apply (signin_keeps_addresses_unique
             Demo.TOTAL_DECIMALS Bench.WORKER_JWT_SECRET Bench.signature_verifies
             Bench.assign_id Bench.jwt_sign _ _ bench_assign_id_fresh
             (demo_addresses_unique 100 5000)).
Defined.

(** The answer to the first task, sent twice. *)
Lemma resubmission_is_refused_witness :
  let k := Bench.desk_of (Demo.world_of 0 0) in
  let body := Some (mkSubmissionInput (Int 1) (Int 11)) in
  Bench.submit 1 body (snd (Bench.submit 1 body k))
  = (Fulfilled (Submission411 "Incorrect task id"), snd (Bench.submit 1 body k)).
Proof.
  apply (resubmission_is_refused Bench.TOTAL_SUBMISSIONS Bench.option_exists
           1 (mkSubmissionInput (Int 1) (Int 11)) (Bench.desk_of (Demo.world_of 0 0))
           (Some (mkTask 2 400000 "Pick the better logo" [21; 22] false))
           (js_div 400000 Bench.TOTAL_SUBMISSIONS)).
  vm_compute. reflexivity.
Defined.

(** The worker's day: the 8000 units credited end as one payout of
    8000, and nothing is unaccounted for. *)
Lemma funds_are_conserved_witness :
  unaccounted 1 (Bench.perform_all Bench.day (Bench.desk_of Bench.no_world))
  = unaccounted 1 (Bench.desk_of Bench.no_world).
Proof.
  apply (funds_are_conserved
           Demo.TOTAL_DECIMALS Bench.TOTAL_SUBMISSIONS Demo.THRESHOLD
           Demo.PARENT_WALLET_PUBLIC_KEY Demo.DISTRIBUTED_SERVER_ENDPOINTS
           Bench.WORKER_JWT_SECRET Demo.sss_combine Demo.bs58_decode Demo.Keypair
           Demo.Keypair_fromSecretKey Demo.PublicKey_error Demo.transfer_error
           Bench.signature_verifies Bench.jwt_sign Bench.assign_id Bench.option_exists
           Bench.day (Bench.desk_of Bench.no_world) 1 bench_assign_id_fresh).
Defined.

Lemma bench_tasks_nonnegative (w : World) (task : Task) :
  In task (tasks (Bench.desk_of w)) -> 0 <= task_amount task.
Proof. cbn. intros [<- | [<- | []]]; cbn; lia. Qed.

Lemma balances_stay_nonnegative_witness :
  balances_nonnegative
    (db (world (Bench.perform_all Bench.day (Bench.desk_of Bench.no_world)))).
Proof.
  apply (balances_stay_nonnegative
           Demo.TOTAL_DECIMALS Bench.TOTAL_SUBMISSIONS Demo.THRESHOLD
           Demo.PARENT_WALLET_PUBLIC_KEY Demo.DISTRIBUTED_SERVER_ENDPOINTS
           Bench.WORKER_JWT_SECRET Demo.sss_combine Demo.bs58_decode Demo.Keypair
           Demo.Keypair_fromSecretKey Demo.PublicKey_error Demo.transfer_error
           Bench.signature_verifies Bench.jwt_sign Bench.assign_id Bench.option_exists
           Bench.day (Bench.desk_of Bench.no_world)
           (bench_tasks_nonnegative Bench.no_world)).
  intros id w Hrow. cbn in Hrow. rewrite lookup_empty in Hrow. discriminate Hrow.
Defined.

Lemma one_submission_per_task_witness :
  one_submission_each
    (submissions (Bench.perform_all Bench.day (Bench.desk_of Bench.no_world))).
Proof.
  apply (one_submission_per_task
           Demo.TOTAL_DECIMALS Bench.TOTAL_SUBMISSIONS Demo.THRESHOLD
           Demo.PARENT_WALLET_PUBLIC_KEY Demo.DISTRIBUTED_SERVER_ENDPOINTS
           Bench.WORKER_JWT_SECRET Demo.sss_combine Demo.bs58_decode Demo.Keypair
           Demo.Keypair_fromSecretKey Demo.PublicKey_error Demo.transfer_error
           Bench.signature_verifies Bench.jwt_sign Bench.assign_id Bench.option_exists
           Bench.day (Bench.desk_of Bench.no_world)).
  apply NoDup_nil_2.
Defined.

(** The worker's day, step by step in the store. *)
Example a_day_at_the_desk :
  let k := Bench.perform_all Bench.day (Bench.desk_of Bench.no_world) in
  map_to_list (workers (db (world k))) = [(1, mkWorker Demo.worker_address 0 0)]
  /\ payouts (db (world k)) = [mkPayout 1 8000 Success "SIG1"]
  /\ map submission_amount (submissions k) = [4000; 4000]
  /\ queue (world k) = [mkJob 1; mkJob 1].
Proof. cbv zeta. repeat split; vm_compute; reflexivity. Qed.
